(** * rose-dna: the SDNA catalog builder, field classifier and encoder

    A shallow embedding of [src/main.cpp]: the growable catalog
    ([DNA_add_struct], [DNA_add_field]), the per-field classification done by
    [TypedefDeclCallback::run], and the serialisation done by [main]
    ([WriteWordOut], [WriteStringOut], [WriteIntOut] and the exit status).

    Conventions of the embedding:
    - [unsigned char] is [byte]; a [std::string] and a [char[64]] buffer are
      [list byte] (the end of a [std::string] list plays the role of the NUL
      that [c_str()] guarantees);
    - [int] is a [Z] in the signed 32-bit range, conversions into [int] are
      written out as [to_int]; [size_t] and clang's [uint64_t] widths are
      non-wrapping [Z] (an LP64 host, widths below [2^64]);
    - a heap array with its separate length ([_Types]/[_TypesLen],
      [_Fields]/[_FieldsLen]) is a list (the allocated block) and a [Z]; a
      pointer into such an array is the index of the cell;
    - undefined behaviour of the C++ (null dereference, reading past a buffer,
      division by zero) is an explicit [Fault] of the [result] monad. *)

From Stdlib Require Import String ZArith List Lia Bool.
From coqutil Require Import Byte Word.LittleEndianList.
Import ListNotations.
Local Open Scope Z_scope.
Local Open Scope list_scope.

(** ** Faults and the error monad *)

Inductive fault : Type :=
| NullDereference
| OutOfBounds
| BufferOverread
| DivisionByZero.

Inductive result (A : Type) : Type :=
| Ok (a : A)
| Fault (f : fault).

Arguments Ok {A} a.
Arguments Fault {A} f.

Definition bind {A B : Type} (c : result A) (k : A -> result B) : result B :=
  match c with
  | Ok a => k a
  | Fault f => Fault f
  end.

Notation "x <- c ;; k" := (bind c (fun x => k))
  (at level 61, c at next level, right associativity).

(** ** Machine integers *)

(** Conversion of an integer value into a 32-bit two's complement [int]. *)
Definition to_int (z : Z) : Z := (z + 2 ^ 31) mod 2 ^ 32 - 2 ^ 31.

Definition int_range (z : Z) : Prop := - 2 ^ 31 <= z < 2 ^ 31.

(** Byte order of the machine that runs the tool. *)
Inductive endianness : Type :=
| LittleEndian
| BigEndian.

(** The [sizeof(int)] bytes of an [int] object, in address order. *)
Definition object_representation (native : endianness) (value : Z) : list byte :=
  match native with
  | LittleEndian => le_split 4 value
  | BigEndian => rev (le_split 4 value)
  end.

(** ** C strings in fixed buffers *)

Definition is_nul (b : byte) : bool := Byte.eqb b Byte.x00.

(** [sizeof(Struct->name)], [sizeof(Field->type)]. *)
Definition NAME_SIZE : nat := 64.

(** The first [n] bytes written by [strncpy(dest, src, n)]: the bytes of
    [src] up to its terminator, then NUL padding up to [n]; no NUL is written
    when [src] has [n] or more bytes before its terminator. *)
Fixpoint strncpy_bytes (src : list byte) (n : nat) {struct n} : list byte :=
  match n with
  | O => []
  | S n' =>
      match src with
      | [] => repeat Byte.x00 (S n')
      | b :: src' =>
          if is_nul b then repeat Byte.x00 (S n')
          else b :: strncpy_bytes src' n'
      end
  end.

Definition strncpy (dest src : list byte) (n : nat) : list byte :=
  strncpy_bytes src n ++ skipn n dest.

(** Construction of a [std::string] from a [char] buffer: the bytes before
    the first NUL of the buffer.  A buffer without NUL makes the constructor
    read past it. *)
Fixpoint string_of_chars (buf : list byte) : result (list byte) :=
  match buf with
  | [] => Fault BufferOverread
  | b :: buf' =>
      if is_nul b then Ok []
      else s <- string_of_chars buf' ;; Ok (b :: s)
  end.

(** What [strncpy] leaves in a zeroed buffer of [NAME_SIZE] bytes. *)
Definition bounded (s : list byte) : list byte :=
  strncpy (repeat Byte.x00 NAME_SIZE) s NAME_SIZE.

(** ** The catalog: [DNAField], [DNAStruct], [SDNA] *)

Module DNAField.
Record t : Type := mk {
  name : list byte;
  type : list byte;
  offset : Z;
  size : Z;
  align : Z;
  array : Z;
  flags : Z
}.
Definition set_name (F : t) (v : list byte) : t :=
  mk v (type F) (offset F) (size F) (align F) (array F) (flags F).
Definition set_type (F : t) (v : list byte) : t :=
  mk (name F) v (offset F) (size F) (align F) (array F) (flags F).
Definition set_offset (F : t) (v : Z) : t :=
  mk (name F) (type F) v (size F) (align F) (array F) (flags F).
Definition set_size (F : t) (v : Z) : t :=
  mk (name F) (type F) (offset F) v (align F) (array F) (flags F).
Definition set_align (F : t) (v : Z) : t :=
  mk (name F) (type F) (offset F) (size F) v (array F) (flags F).
Definition set_array (F : t) (v : Z) : t :=
  mk (name F) (type F) (offset F) (size F) (align F) v (flags F).
Definition set_flags (F : t) (v : Z) : t :=
  mk (name F) (type F) (offset F) (size F) (align F) (array F) v.
(** [memset(Field, 0, sizeof(DNAField))]. *)
Definition zero : t :=
  mk (repeat Byte.x00 NAME_SIZE) (repeat Byte.x00 NAME_SIZE) 0 0 0 0 0.
End DNAField.

Definition DNA_FIELD_IS_POINTER : Z := Z.shiftl 1 0.
Definition DNA_FIELD_IS_ARRAY : Z := Z.shiftl 1 1.
Definition DNA_FIELD_IS_FUNCTION : Z := Z.shiftl 1 2.

Module DNAStruct.
Record t : Type := mk {
  name : list byte;
  size : Z;
  _Fields : list DNAField.t;
  _FieldsLen : Z
}.
Definition set_name (S : t) (v : list byte) : t :=
  mk v (size S) (_Fields S) (_FieldsLen S).
Definition set_size (S : t) (v : Z) : t :=
  mk (name S) v (_Fields S) (_FieldsLen S).
(** [memset(Struct, 0, sizeof(DNAStruct))]: a NULL [_Fields] is the empty block. *)
Definition zero : t := mk (repeat Byte.x00 NAME_SIZE) 0 [] 0.
End DNAStruct.

Module SDNA.
Record t : Type := mk {
  _Types : list DNAStruct.t;
  _TypesLen : Z
}.
(** [memset(&DNA, 0, sizeof(SDNA))]. *)
Definition zero : t := mk [] 0.
End SDNA.

(** ** The heap *)

(** [realloc(ptr, n * sizeof(A))].  [blk = None] is the failing call (NULL is
    returned and the old block is left alone); [blk = Some fresh] is the
    succeeding one: the old cells are kept up to the new size and the cells
    added hold indeterminate contents, [fresh]. *)
Definition realloc {A : Type} (blk : option A) (ptr : list A) (n : nat)
  : option (list A) :=
  match blk with
  | None => None
  | Some fresh => Some (firstn n ptr ++ repeat fresh (n - length ptr))
  end.

(** [arr[i] = x] on a block. *)
Fixpoint store {A : Type} (arr : list A) (i : nat) (x : A) : list A :=
  match arr, i with
  | [], _ => []
  | _ :: arr', O => x :: arr'
  | a :: arr', S i' => a :: store arr' i' x
  end.

(** ** [DNA_add_struct] and [DNA_add_field] *)

(** Returns the updated catalog and the handle [Struct]: the index of the new
    cell in [_Types], or [None] for NULL. *)
Definition DNA_add_struct (blk : option DNAStruct.t) (DNA : SDNA.t)
  (name : list byte) : SDNA.t * option nat :=
  match realloc blk (SDNA._Types DNA) (Z.to_nat (SDNA._TypesLen DNA + 1)) with
  | Some arr =>
      let idx := Z.to_nat (SDNA._TypesLen DNA) in
      let Struct := DNAStruct.zero in
      let Struct :=
        DNAStruct.set_name Struct (strncpy (DNAStruct.name Struct) name NAME_SIZE) in
      (SDNA.mk (store arr idx Struct) (SDNA._TypesLen DNA + 1), Some idx)
  | None => (DNA, None)
  end.

(** Returns the updated struct and the handle [Field]: the index of the new
    cell in [_Fields], or [None] for NULL. *)
Definition DNA_add_field (blk : option DNAField.t) (Struct : DNAStruct.t)
  (name : list byte) : DNAStruct.t * option nat :=
  match realloc blk (DNAStruct._Fields Struct)
          (Z.to_nat (DNAStruct._FieldsLen Struct + 1)) with
  | Some arr =>
      let idx := Z.to_nat (DNAStruct._FieldsLen Struct) in
      let Field := DNAField.zero in
      let Field :=
        DNAField.set_name Field (strncpy (DNAField.name Field) name NAME_SIZE) in
      (DNAStruct.mk (DNAStruct.name Struct) (DNAStruct.size Struct)
         (store arr idx Field) (DNAStruct._FieldsLen Struct + 1), Some idx)
  | None => (Struct, None)
  end.

(** ** The type-introspection provider (clang) *)

(** A canonical C type as clang presents it.  Every node carries the string
    that [getAsString()] returns for it; clang's printer is not modelled.
    [NamedType] stands for every type that is neither a pointer, an array nor
    a function (builtin, enum, record); its [Width] and [Align] are the bit
    counts [getTypeInfo] reports (unsigned 64-bit values). *)
Inductive QualType : Type :=
| NamedType (AsString : list byte) (Width Align : Z)
| FunctionType (AsString : list byte)
| PointerType (AsString : list byte) (Pointee : QualType)
| ArrayType (AsString : list byte) (Element : QualType) (Size : Z).

Definition getAsString (T : QualType) : list byte :=
  match T with
  | NamedType s _ _ => s
  | FunctionType s => s
  | PointerType s _ => s
  | ArrayType s _ _ => s
  end.

Definition isPointerType (T : QualType) : bool :=
  match T with
  | PointerType _ _ => true
  | _ => false
  end.

Definition isFunctionType (T : QualType) : bool :=
  match T with
  | FunctionType _ => true
  | _ => false
  end.

Definition isArrayType (T : QualType) : bool :=
  match T with
  | ArrayType _ _ _ => true
  | _ => false
  end.

(** A null [QualType] for a type that is not a pointer. *)
Definition getPointeeType (T : QualType) : option QualType :=
  match T with
  | PointerType _ Pointee => Some Pointee
  | _ => None
  end.

Definition isFunctionPointerType (T : QualType) : bool :=
  match getPointeeType T with
  | Some Pointee => isFunctionType Pointee
  | None => false
  end.

(** NULL for a type that is not an array. *)
Definition getAsArrayTypeUnsafe (T : QualType) : option QualType :=
  if isArrayType T then Some T else None.

Definition getElementType (AT : QualType) : option QualType :=
  match AT with
  | ArrayType _ Element _ => Some Element
  | _ => None
  end.

Record TypeInfo : Type := mkTypeInfo {
  Width : Z;
  Align : Z
}.

(** The target facts [getTypeInfo] needs beyond the type itself. *)
Record ASTContext : Type := mkASTContext {
  PointerWidth : Z;
  PointerAlign : Z
}.

Fixpoint getTypeInfo (CTX : ASTContext) (T : QualType) : TypeInfo :=
  match T with
  | NamedType _ W A => mkTypeInfo W A
  | FunctionType _ => mkTypeInfo 0 32
  | PointerType _ _ => mkTypeInfo (PointerWidth CTX) (PointerAlign CTX)
  | ArrayType _ Element Size =>
      let EltInfo := getTypeInfo CTX Element in
      mkTypeInfo (Width EltInfo * Size) (Align EltInfo)
  end.

Record FieldDecl : Type := mkFieldDecl {
  getNameAsString : list byte;
  getType : QualType;
  (** [ASTContext::getFieldOffset], as clang reports it. *)
  getFieldOffset : Z
}.

Record RecordDecl : Type := mkRecordDecl {
  (** [getBeginLoc().isValid()]. *)
  BeginLocValid : bool;
  fields : list FieldDecl
}.

Record TypedefDecl : Type := mkTypedefDecl {
  getASTContext : ASTContext;
  getUnderlyingType : QualType;
  (** [getUnderlyingType()->getAsRecordDecl()], NULL when the type is no record. *)
  getAsRecordDecl : option RecordDecl
}.

(** ** [TypedefDeclCallback::run] *)

(** Dereference of a pointer the provider may return as null. *)
Definition deref {A : Type} (p : option A) : result A :=
  match p with
  | Some a => Ok a
  | None => Fault NullDereference
  end.

(** The writes made through a pointer to cell [i] of a block. *)
Definition through {A : Type} (arr : list A) (i : nat) (f : A -> result A)
  : result (list A) :=
  match nth_error arr i with
  | Some a => a' <- f a ;; Ok (store arr i a')
  | None => Fault OutOfBounds
  end.

(** The [while] loop that looks for the simplest element type: the innermost
    array type reached from [AT]. *)
Fixpoint simplest_array (AT : QualType) : QualType :=
  match AT with
  | ArrayType _ Element _ =>
      if isArrayType Element then simplest_array Element else AT
  | _ => AT
  end.

(** Everything [run] writes through [Field] after [DNA_add_field]. *)
Definition run_field_info (CTX : ASTContext) (FieldQual : QualType)
  (size align offset : Z) (Field : DNAField.t) : result DNAField.t :=
  let Field := DNAField.set_size Field (to_int size) in
  let Field := DNAField.set_align Field (to_int align) in
  let Field := DNAField.set_offset Field (to_int offset) in
  let Field := DNAField.set_array Field 1 in
  let Field :=
    if isPointerType FieldQual
    then DNAField.set_flags Field (Z.lor (DNAField.flags Field) DNA_FIELD_IS_POINTER)
    else Field in
  let Field :=
    if isFunctionPointerType FieldQual
    then DNAField.set_flags Field (Z.lor (DNAField.flags Field) DNA_FIELD_IS_FUNCTION)
    else Field in
  if isPointerType FieldQual || isFunctionPointerType FieldQual then
    PointeeQual <- deref (getPointeeType FieldQual) ;;
    let tp := getAsString PointeeQual in
    Ok (DNAField.set_type Field (strncpy (DNAField.type Field) tp NAME_SIZE))
  else if isArrayType FieldQual then
    AT <- deref (getAsArrayTypeUnsafe FieldQual) ;;
    let AT := simplest_array AT in
    ArrayElementQual <- deref (getElementType AT) ;;
    let elem_size := Width (getTypeInfo CTX ArrayElementQual) / 8 in
    if elem_size =? 0 then Fault DivisionByZero
    else
      let Field := DNAField.set_array Field (to_int (size / elem_size)) in
      if isPointerType ArrayElementQual then
        let Field :=
          DNAField.set_flags Field (Z.lor (DNAField.flags Field) DNA_FIELD_IS_POINTER) in
        PointeeQual <- deref (getPointeeType ArrayElementQual) ;;
        let tp := getAsString PointeeQual in
        Ok (DNAField.set_type Field (strncpy (DNAField.type Field) tp NAME_SIZE))
      else
        let tp := getAsString ArrayElementQual in
        Ok (DNAField.set_type Field (strncpy (DNAField.type Field) tp NAME_SIZE))
  else
    let tp := getAsString FieldQual in
    Ok (DNAField.set_type Field (strncpy (DNAField.type Field) tp NAME_SIZE)).

(** One iteration of the loop over [RD->fields()]; [blk] is what the
    [realloc] of this iteration does. *)
Definition run_field (CTX : ASTContext) (blk : option DNAField.t)
  (Struct : DNAStruct.t) (FD : FieldDecl) : result DNAStruct.t :=
  let FieldQual := getType FD in
  let size := Width (getTypeInfo CTX FieldQual) / 8 in
  let align := Align (getTypeInfo CTX FieldQual) / 8 in
  let offset := getFieldOffset FD in
  let (Struct, Field) := DNA_add_field blk Struct (getNameAsString FD) in
  match Field with
  | None => Fault NullDereference
  | Some Field =>
      Fields <- through (DNAStruct._Fields Struct) Field
                  (run_field_info CTX FieldQual size align offset) ;;
      Ok (DNAStruct.mk (DNAStruct.name Struct) (DNAStruct.size Struct)
            Fields (DNAStruct._FieldsLen Struct))
  end.

(** What the allocator does during one call of [run]: [struct_block] for the
    [realloc] of [DNA_add_struct], [field_block k] for the one of the [k]-th
    iteration of the field loop. *)
Record Heap : Type := mkHeap {
  struct_block : option DNAStruct.t;
  field_block : nat -> option DNAField.t
}.

Fixpoint run_fields (CTX : ASTContext) (blocks : nat -> option DNAField.t)
  (k : nat) (Struct : DNAStruct.t) (FDs : list FieldDecl) : result DNAStruct.t :=
  match FDs with
  | [] => Ok Struct
  | FD :: FDs' =>
      Struct' <- run_field CTX (blocks k) Struct FD ;;
      run_fields CTX blocks (S k) Struct' FDs'
  end.

(** [Result] is [Result.Nodes.getNodeAs<TypedefDecl>("typedef")]. *)
Definition run (heap : Heap) (DNA : SDNA.t) (Result : option TypedefDecl)
  : result SDNA.t :=
  match Result with
  | None => Ok DNA
  | Some TD =>
      let CTX := getASTContext TD in
      let Qual := getUnderlyingType TD in
      match getAsRecordDecl TD with
      | None => Ok DNA
      | Some RD =>
          if negb (BeginLocValid RD) then Ok DNA
          else
            let (DNA, Struct) :=
              DNA_add_struct (struct_block heap) DNA (getAsString Qual) in
            match Struct with
            | None => Fault NullDereference
            | Some Struct =>
                Types <- through (SDNA._Types DNA) Struct
                           (fun S =>
                              let S :=
                                DNAStruct.set_size S
                                  (to_int (Width (getTypeInfo CTX Qual) / 8)) in
                              run_fields CTX (field_block heap) 0 S (fields RD)) ;;
                Ok (SDNA.mk Types (SDNA._TypesLen DNA))
            end
      end
  end.

(** ** The encoder of [main] *)

Definition push_back (Buffer : list byte) (b : byte) : list byte := Buffer ++ [b].

(** Does not include the null terminator. *)
Definition WriteWordOut (Buffer Word : list byte) : list byte :=
  fold_left push_back Word Buffer.

(** Does include the null terminator. *)
Definition WriteStringOut (Buffer Word : list byte) : list byte :=
  push_back (fold_left push_back Word Buffer) Byte.x00.

Definition WriteIntOut (native : endianness) (Buffer : list byte) (value : Z)
  : list byte :=
  fold_left push_back (object_representation native value) Buffer.

(** [n] iterations of a pointer loop over the cells [arr[i]], [arr[i+1]], ... *)
Fixpoint for_cells {A S : Type} (arr : list A) (i n : nat)
  (body : A -> S -> result S) (s : S) : result S :=
  match n with
  | O => Ok s
  | Datatypes.S n' =>
      match nth_error arr i with
      | None => Fault OutOfBounds
      | Some a => s' <- body a s ;; for_cells arr (Datatypes.S i) n' body s'
      end
  end.

(** The loop [for (p = arr; p != arr + len; ++p)]; with a negative [len] the
    pointer never meets the end. *)
Definition for_each {A S : Type} (arr : list A) (len : Z)
  (body : A -> S -> result S) (s : S) : result S :=
  if len <? 0 then Fault OutOfBounds
  else for_cells arr 0 (Z.to_nat len) body s.

Definition SDNA_magic : list byte := list_byte_of_string "SDNA".

Definition main_write_field (native : endianness) (Field : DNAField.t)
  (_BufferOut : list byte) : result (list byte) :=
  name <- string_of_chars (DNAField.name Field) ;;
  let _BufferOut := WriteStringOut _BufferOut name in
  type <- string_of_chars (DNAField.type Field) ;;
  let _BufferOut := WriteStringOut _BufferOut type in
  let _BufferOut := WriteIntOut native _BufferOut (DNAField.offset Field) in
  let _BufferOut := WriteIntOut native _BufferOut (DNAField.size Field) in
  let _BufferOut := WriteIntOut native _BufferOut (DNAField.align Field) in
  let _BufferOut := WriteIntOut native _BufferOut (DNAField.array Field) in
  let _BufferOut := WriteIntOut native _BufferOut (DNAField.flags Field) in
  Ok _BufferOut.

Definition main_write_struct (native : endianness) (Struct : DNAStruct.t)
  (_BufferOut : list byte) : result (list byte) :=
  name <- string_of_chars (DNAStruct.name Struct) ;;
  let _BufferOut := WriteStringOut _BufferOut name in
  let _BufferOut := WriteIntOut native _BufferOut (DNAStruct.size Struct) in
  let _BufferOut := WriteIntOut native _BufferOut (DNAStruct._FieldsLen Struct) in
  for_each (DNAStruct._Fields Struct) (DNAStruct._FieldsLen Struct)
    (main_write_field native) _BufferOut.

(** The buffer [main] builds from the finished catalog. *)
Definition main_BufferOut (native : endianness) (DNA : SDNA.t)
  : result (list byte) :=
  let _BufferOut := [] in
  let _BufferOut := WriteWordOut _BufferOut SDNA_magic in
  let _BufferOut := WriteIntOut native _BufferOut (SDNA._TypesLen DNA) in
  for_each (SDNA._Types DNA) (SDNA._TypesLen DNA)
    (main_write_struct native) _BufferOut.

(** The value [main] returns once the buffer is built: [out] tells whether
    [fopen] gave a stream, [written] is what [fwrite] returned and [size] is
    [_BufferOut.size()]. *)
Definition main_ExitStatus (out : bool) (written size : Z) : Z :=
  let ExitStatus := 0 in
  if out then
    if negb (written =? size) then -2 else ExitStatus
  else -1.

(** ** The catalog and the binary format of the specification *)

(** The normalized records of the data model: names are strings, not buffers. *)
Record FieldEntry : Type := mkFieldEntry {
  fe_name : list byte;
  fe_type : list byte;
  fe_offset : Z;
  fe_size : Z;
  fe_align : Z;
  fe_array : Z;
  fe_flags : Z
}.

Record StructEntry : Type := mkStructEntry {
  se_name : list byte;
  se_size : Z;
  se_fields : list FieldEntry
}.

Definition Catalog : Type := list StructEntry.

(** The string a buffer holds: its bytes before the first NUL. *)
Fixpoint held_string (buf : list byte) : list byte :=
  match buf with
  | [] => []
  | b :: buf' => if is_nul b then [] else b :: held_string buf'
  end.

Definition field_entry (F : DNAField.t) : FieldEntry :=
  mkFieldEntry (held_string (DNAField.name F)) (held_string (DNAField.type F))
    (DNAField.offset F) (DNAField.size F) (DNAField.align F)
    (DNAField.array F) (DNAField.flags F).

Definition struct_entry (S : DNAStruct.t) : StructEntry :=
  mkStructEntry (held_string (DNAStruct.name S)) (DNAStruct.size S)
    (map field_entry (DNAStruct._Fields S)).

(** The catalog an in-memory [SDNA] stands for. *)
Definition catalog (DNA : SDNA.t) : Catalog :=
  map struct_entry (SDNA._Types DNA).

(** [int32]: four bytes, least significant first on a little-endian producer
    and last on a big-endian one. *)
Definition int32 (native : endianness) (v : Z) : list byte :=
  let b (k : Z) := byte.of_Z (Z.shiftr v (8 * k)) in
  match native with
  | LittleEndian => [b 0; b 1; b 2; b 3]
  | BigEndian => [b 3; b 2; b 1; b 0]
  end.

(** [cstring]: raw bytes and one [0x00] terminator. *)
Definition cstring (s : list byte) : list byte := s ++ [Byte.x00].

Definition format_field (native : endianness) (F : FieldEntry) : list byte :=
  cstring (fe_name F) ++ cstring (fe_type F)
  ++ int32 native (fe_offset F) ++ int32 native (fe_size F)
  ++ int32 native (fe_align F) ++ int32 native (fe_array F)
  ++ int32 native (fe_flags F).

Definition format_struct (native : endianness) (S : StructEntry) : list byte :=
  cstring (se_name S) ++ int32 native (se_size S)
  ++ int32 native (Z.of_nat (length (se_fields S)))
  ++ flat_map (format_field native) (se_fields S).

(** The byte sequence of the binary output format. *)
Definition SDNA_format (native : endianness) (C : Catalog) : list byte :=
  SDNA_magic ++ int32 native (Z.of_nat (length C))
  ++ flat_map (format_struct native) C.

(** Modelled from the spec: the symmetric reader of the binary output format;
    the repository has the producer only.  It reads the layout of the format
    field by field, on a machine of the producer's byte order, and accepts
    nothing but a whole catalog. *)
Fixpoint read_cstring (bs : list byte) : option (list byte * list byte) :=
  match bs with
  | [] => None
  | b :: bs' =>
      if is_nul b then Some ([], bs')
      else
        match read_cstring bs' with
        | Some (s, rest) => Some (b :: s, rest)
        | None => None
        end
  end.

(** Modelled from the spec: the reader of one [int32] of the format. *)
Definition read_int32 (native : endianness) (bs : list byte)
  : option (Z * list byte) :=
  match bs with
  | b0 :: b1 :: b2 :: b3 :: rest =>
      let le :=
        match native with
        | LittleEndian => [b0; b1; b2; b3]
        | BigEndian => [b3; b2; b1; b0]
        end in
      Some (to_int (le_combine le), rest)
  | _ => None
  end.

(** Modelled from the spec: the reader of one field record of the format. *)
Definition read_field (native : endianness) (bs : list byte)
  : option (FieldEntry * list byte) :=
  match read_cstring bs with
  | Some (name, bs) =>
  match read_cstring bs with
  | Some (type, bs) =>
  match read_int32 native bs with
  | Some (offset, bs) =>
  match read_int32 native bs with
  | Some (size, bs) =>
  match read_int32 native bs with
  | Some (align, bs) =>
  match read_int32 native bs with
  | Some (array, bs) =>
  match read_int32 native bs with
  | Some (flags, bs) =>
      Some (mkFieldEntry name type offset size align array flags, bs)
  | None => None end
  | None => None end
  | None => None end
  | None => None end
  | None => None end
  | None => None end
  | None => None end.

(** Modelled from the spec: [n] repetitions of a reader. *)
Fixpoint read_repeated {A : Type} (read : list byte -> option (A * list byte))
  (n : nat) (bs : list byte) : option (list A * list byte) :=
  match n with
  | O => Some ([], bs)
  | Datatypes.S n' =>
      match read bs with
      | Some (a, bs) =>
          match read_repeated read n' bs with
          | Some (l, bs) => Some (a :: l, bs)
          | None => None
          end
      | None => None
      end
  end.

(** Modelled from the spec: the reader of one struct record of the format. *)
Definition read_struct (native : endianness) (bs : list byte)
  : option (StructEntry * list byte) :=
  match read_cstring bs with
  | Some (name, bs) =>
  match read_int32 native bs with
  | Some (size, bs) =>
  match read_int32 native bs with
  | Some (fieldCount, bs) =>
      if fieldCount <? 0 then None
      else
        match read_repeated (read_field native) (Z.to_nat fieldCount) bs with
        | Some (fs, bs) => Some (mkStructEntry name size fs, bs)
        | None => None
        end
  | None => None end
  | None => None end
  | None => None end.

(** Modelled from the spec: the symmetric reader of a whole file. *)
Definition SDNA_read (native : endianness) (bs : list byte) : option Catalog :=
  match bs with
  | m0 :: m1 :: m2 :: m3 :: bs =>
      if list_eq_dec Byte.byte_eq_dec [m0; m1; m2; m3] SDNA_magic then
        match read_int32 native bs with
        | Some (structCount, bs) =>
            if structCount <? 0 then None
            else
              match read_repeated (read_struct native) (Z.to_nat structCount) bs with
              | Some (C, []) => Some C
              | _ => None
              end
        | None => None
        end
      else None
  | _ => None
  end.

(** The three outcomes of the process boundary. *)
Inductive Outcome : Type :=
| Success
| OpenFailure
| ShortWriteFailure.

(** The outcome of a run from what the file operations did: the destination
    did not open, or fewer bytes were written than the buffer contains, or
    neither. *)
Definition outcome (out : bool) (written size : Z) : Outcome :=
  if out then
    if written <? size then ShortWriteFailure else Success
  else OpenFailure.

(** The part of [main]'s return value a POSIX parent observes. *)
Definition wait_status (ExitStatus : Z) : Z := Z.land ExitStatus 255.

(** ** Representation invariants of the in-memory catalog *)

Definition has_nul (buf : list byte) : bool := existsb is_nul buf.

Definition in_int (z : Z) : bool := (- 2 ^ 31 <=? z) && (z <? 2 ^ 31).

(** Every name and type buffer holds a terminated string. *)
Definition field_terminated (F : DNAField.t) : bool :=
  has_nul (DNAField.name F) && has_nul (DNAField.type F).

Definition struct_terminated (S : DNAStruct.t) : bool :=
  has_nul (DNAStruct.name S) && forallb field_terminated (DNAStruct._Fields S).

Definition names_terminated (DNA : SDNA.t) : bool :=
  forallb struct_terminated (SDNA._Types DNA).

(** Every length is the size of its block. *)
Definition struct_sized (S : DNAStruct.t) : bool :=
  DNAStruct._FieldsLen S =? Z.of_nat (length (DNAStruct._Fields S)).

Definition blocks_sized (DNA : SDNA.t) : bool :=
  (SDNA._TypesLen DNA =? Z.of_nat (length (SDNA._Types DNA)))
  && forallb struct_sized (SDNA._Types DNA).

(** Every [int] member holds an [int]. *)
Definition field_ints (F : DNAField.t) : bool :=
  in_int (DNAField.offset F) && in_int (DNAField.size F)
  && in_int (DNAField.align F) && in_int (DNAField.array F)
  && in_int (DNAField.flags F).

Definition struct_ints (S : DNAStruct.t) : bool :=
  in_int (DNAStruct.size S) && in_int (DNAStruct._FieldsLen S)
  && forallb field_ints (DNAStruct._Fields S).

Definition ints_typed (DNA : SDNA.t) : bool :=
  in_int (SDNA._TypesLen DNA) && forallb struct_ints (SDNA._Types DNA).

(** What the reader can tell apart: strings without NUL, integers that are
    [int32] values, counts included. *)
Definition field_entry_ok (F : FieldEntry) : bool :=
  negb (has_nul (fe_name F)) && negb (has_nul (fe_type F))
  && in_int (fe_offset F) && in_int (fe_size F) && in_int (fe_align F)
  && in_int (fe_array F) && in_int (fe_flags F).

Definition struct_entry_ok (S : StructEntry) : bool :=
  negb (has_nul (se_name S)) && in_int (se_size S)
  && in_int (Z.of_nat (length (se_fields S)))
  && forallb field_entry_ok (se_fields S).

Definition catalog_ok (C : Catalog) : bool :=
  in_int (Z.of_nat (length C)) && forallb struct_entry_ok C.

(** A string the bounded storage holds whole: no embedded NUL and room left
    for the terminator. *)
Definition fits (s : list byte) : bool :=
  negb (has_nul s) && (length s <? NAME_SIZE)%nat.

(** ** Array shapes *)

(** The innermost element type of an array type: what is left once every
    array dimension is unwrapped. *)
Fixpoint innermost_element (T : QualType) : QualType :=
  match T with
  | ArrayType _ Element _ => innermost_element Element
  | _ => T
  end.

(** The number of innermost elements: the product of all dimensions. *)
Fixpoint element_count (T : QualType) : Z :=
  match T with
  | ArrayType _ Element Size => Size * element_count Element
  | _ => 1
  end.

(** [getTypeInfo(T).Width / 8]: the byte size [run] computes for a type. *)
Definition byte_size (CTX : ASTContext) (T : QualType) : Z :=
  Width (getTypeInfo CTX T) / 8.

(** ** Catalogs the tool can reach *)

(** The catalog starts zeroed and changes only through [run], once per
    matched declaration, whatever the allocator does. *)
Inductive built : SDNA.t -> Prop :=
| built_zero : built SDNA.zero
| built_run (heap : Heap) (DNA DNA' : SDNA.t) (Result : option TypedefDecl) :
    built DNA -> run heap DNA Result = Ok DNA' -> built DNA'.

(** The flag sets the classification rules populate. *)
Definition populated_flags (flags : Z) : bool :=
  (flags =? 0) || (flags =? DNA_FIELD_IS_POINTER)
  || (flags =? Z.lor DNA_FIELD_IS_POINTER DNA_FIELD_IS_FUNCTION).

(** A field entry as one iteration of the field loop leaves it. *)
Definition classified (F : DNAField.t) : Prop :=
  exists CTX FD,
    run_field_info CTX (getType FD) (byte_size CTX (getType FD))
      (Align (getTypeInfo CTX (getType FD)) / 8) (getFieldOffset FD)
      (DNAField.set_name DNAField.zero (bounded (getNameAsString FD)))
    = Ok F.

(** A struct entry as one call of [run] leaves it. *)
Definition entered (S : DNAStruct.t) : Prop :=
  exists name width Fields,
    S = DNAStruct.mk (bounded name) (to_int (width / 8)) Fields
          (Z.of_nat (length Fields))
    /\ Forall classified Fields.

(** ** Sample declarations *)

Definition str (s : string) : list byte := list_byte_of_string s.

Definition LP64 : ASTContext := mkASTContext 64 64.

Definition float_type : QualType := NamedType (str "float") 32 32.
Definition int_type : QualType := NamedType (str "int") 32 32.

(** [typedef struct Vec3 { float x; float y; float z; } Vec3;] *)
Definition Vec3_decl : TypedefDecl :=
  mkTypedefDecl LP64 (NamedType (str "Vec3") 96 32)
    (Some (mkRecordDecl true
       [mkFieldDecl (str "x") float_type 0;
        mkFieldDecl (str "y") float_type 32;
        mkFieldDecl (str "z") float_type 64])).

(** [typedef struct Node { struct Node *next; } Node;] *)
Definition Node_decl : TypedefDecl :=
  mkTypedefDecl LP64 (NamedType (str "Node") 64 64)
    (Some (mkRecordDecl true
       [mkFieldDecl (str "next")
          (PointerType (str "Node *") (NamedType (str "Node") 64 64)) 0])).

(** [typedef struct Table { int rows[4][2]; } Table;] *)
Definition Table_decl : TypedefDecl :=
  mkTypedefDecl LP64 (NamedType (str "Table") 256 32)
    (Some (mkRecordDecl true
       [mkFieldDecl (str "rows")
          (ArrayType (str "int[4][2]") (ArrayType (str "int[2]") int_type 2) 4) 0])).

Definition Node_type : QualType := NamedType (str "Node") 64 64.

(** [int x[2][3];] *)
Definition grid_field : FieldDecl :=
  mkFieldDecl (str "x")
    (ArrayType (str "int[2][3]") (ArrayType (str "int[3]") int_type 3) 2) 0.

(** [Node *slots[4];] *)
Definition slots_field : FieldDecl :=
  mkFieldDecl (str "slots")
    (ArrayType (str "Node *[4]") (PointerType (str "Node *") Node_type) 4) 0.

(** [int ( *row)[3];]: a pointer whose pointee is an array. *)
Definition row_field : FieldDecl :=
  mkFieldDecl (str "row")
    (PointerType (str "int ( *)[3]") (ArrayType (str "int[3]") int_type 3)) 0.

(** [void ( *fn)(int);]: a function pointer. *)
Definition fn_field : FieldDecl :=
  mkFieldDecl (str "fn")
    (PointerType (str "void ( *)(int)") (FunctionType (str "void (int)"))) 0.

(** A struct entry as [DNA_add_struct] leaves it. *)
Definition fresh_struct : DNAStruct.t :=
  DNAStruct.set_name DNAStruct.zero (bounded (str "Sample")).

(** An allocator that always succeeds and hands out cells full of [0xFF]. *)
Definition dirty_field : DNAField.t :=
  DNAField.mk (repeat Byte.xff NAME_SIZE) (repeat Byte.xff NAME_SIZE)
    (-1) (-1) (-1) (-1) (-1).
Definition dirty_struct : DNAStruct.t :=
  DNAStruct.mk (repeat Byte.xff NAME_SIZE) (-1) [dirty_field] (-1).
Definition plenty : Heap := mkHeap (Some dirty_struct) (fun _ => Some dirty_field).

(** [typedef struct Shapes { int x[2][3]; Node *slots[4]; int ( *row)[3];
    void ( *fn)(int); } Shapes;] *)
Definition placed (offset : Z) (FD : FieldDecl) : FieldDecl :=
  mkFieldDecl (getNameAsString FD) (getType FD) offset.

Definition Shapes_decl : TypedefDecl :=
  mkTypedefDecl LP64 (NamedType (str "Shapes") 576 64)
    (Some (mkRecordDecl true
       [grid_field; placed 192 slots_field; placed 448 row_field;
        placed 512 fn_field])).

(** The catalog a finished run leaves, for the samples. *)
Definition finished (r : result SDNA.t) : SDNA.t :=
  match r with
  | Ok DNA => DNA
  | Fault _ => SDNA.zero
  end.

Definition Vec3_catalog : SDNA.t :=
  finished (run plenty SDNA.zero (Some Vec3_decl)).

Definition Shapes_catalog : SDNA.t :=
  finished (run plenty Vec3_catalog (Some Shapes_decl)).

(** The entry of [Shapes] in that catalog and, in it, the entry of [slots]. *)
Definition Shapes_struct : DNAStruct.t :=
  nth 1 (SDNA._Types Shapes_catalog) DNAStruct.zero.

Definition slots_entry : DNAField.t :=
  nth 1 (DNAStruct._Fields Shapes_struct) DNAField.zero.

(** A struct name of 65 bytes, and the catalog [DNA_add_struct] makes of it. *)
Definition long_name : list byte := repeat Byte.x41 65.

Definition long_name_catalog : SDNA.t :=
  fst (DNA_add_struct (Some dirty_struct) SDNA.zero long_name).

(** An allocator that is out of memory. *)
Definition exhausted : Heap := mkHeap None (fun _ => None).

(** ** One iteration of the field loop, by parts *)

(** The string [tp] that [run] copies into [Field->type]: the pointee's name
    for a pointer, the innermost element's name (or that element's pointee's)
    for an array, the type's own name otherwise. *)
Definition stored_type_name (FieldQual : QualType) : list byte :=
  match getPointeeType FieldQual with
  | Some Pointee => getAsString Pointee
  | None =>
      if isArrayType FieldQual then
        match getPointeeType (innermost_element FieldQual) with
        | Some Pointee => getAsString Pointee
        | None => getAsString (innermost_element FieldQual)
        end
      else getAsString FieldQual
  end.

(** The division of the array branch has a divisor: the field is no array, or
    its innermost element has a byte size other than zero. *)
Definition divisible (CTX : ASTContext) (FieldQual : QualType) : bool :=
  negb (isArrayType FieldQual
        && (byte_size CTX (innermost_element FieldQual) =? 0)).

(** What one iteration writes into the cell [DNA_add_field] returned. *)
Definition classify (CTX : ASTContext) (FD : FieldDecl) : result DNAField.t :=
  run_field_info CTX (getType FD) (byte_size CTX (getType FD))
    (Align (getTypeInfo CTX (getType FD)) / 8) (getFieldOffset FD)
    (DNAField.set_name DNAField.zero (bounded (getNameAsString FD))).

(** The declaration's own strings fit the bounded storage. *)
Definition field_fits (FD : FieldDecl) : bool :=
  fits (getNameAsString FD) && fits (stored_type_name (getType FD)).

Definition record_fits (TD : TypedefDecl) (RD : RecordDecl) : bool :=
  fits (getAsString (getUnderlyingType TD)) && forallb field_fits (fields RD).

(** The number of bytes the format takes for a catalog. *)
Definition field_entry_bytes (F : FieldEntry) : nat :=
  (length (fe_name F) + 1) + (length (fe_type F) + 1) + 20.

Definition struct_entry_bytes (S : StructEntry) : nat :=
  (length (se_name S) + 1) + 8
  + list_sum (map field_entry_bytes (se_fields S)).

Definition catalog_bytes (C : Catalog) : nat :=
  8 + list_sum (map struct_entry_bytes C).

(** [struct Empty {}] (a GNU C extension, of size zero) and
    [struct Empty cells[3];]. *)
Definition Empty_type : QualType := NamedType (str "struct Empty") 0 8.

Definition cells_field : FieldDecl :=
  mkFieldDecl (str "cells") (ArrayType (str "struct Empty[3]") Empty_type 3) 0.

(** [float w;] *)
Definition w_field : FieldDecl := mkFieldDecl (str "w") float_type 96.

(** The struct a finished iteration leaves, for the samples. *)
Definition completed (r : result DNAStruct.t) : DNAStruct.t :=
  match r with
  | Ok Struct => Struct
  | Fault _ => DNAStruct.zero
  end.

(** [char blob[3000000000];] *)
Definition blob_field : FieldDecl :=
  mkFieldDecl (str "blob")
    (ArrayType (str "char[3000000000]") (NamedType (str "char") 8 8) 3000000000) 0.

(** An allocator that always succeeds and hands out zeroed cells. *)
Definition clean : Heap :=
  mkHeap (Some DNAStruct.zero) (fun _ => Some DNAField.zero).

(** The catalog after [Vec3] and then [Node]. *)
Definition Node_catalog : SDNA.t :=
  finished (run plenty Vec3_catalog (Some Node_decl)).

(** * Properties *)

(** ** Integers and their bytes *)

Lemma in_int_range (z : Z) : in_int z = true <-> int_range z.
Proof.
  unfold in_int, int_range.
  rewrite andb_true_iff, Z.leb_le, Z.ltb_lt. tauto.
Qed.

Lemma to_int_id (z : Z) : int_range z -> to_int z = z.
Proof.
  unfold int_range, to_int. intros H.
  rewrite Z.mod_small; lia.
Qed.

Lemma to_int_in_int (z : Z) : in_int (to_int z) = true.
Proof.
  apply in_int_range. unfold int_range, to_int.
  pose proof (Z.mod_pos_bound (z + 2 ^ 31) (2 ^ 32)). lia.
Qed.

Lemma to_int_mod (z : Z) : to_int (z mod 2 ^ 32) = to_int z.
Proof.
  unfold to_int.
  rewrite Zplus_mod_idemp_l. reflexivity.
Qed.

Lemma object_representation_int32 (native : endianness) (v : Z) :
  object_representation native v = int32 native v.
Proof.
  assert (E : le_split 4 v = int32 LittleEndian v).
  { change (le_split 4 v) with
      [byte.of_Z v; byte.of_Z (Z.shiftr v 8);
       byte.of_Z (Z.shiftr (Z.shiftr v 8) 8);
       byte.of_Z (Z.shiftr (Z.shiftr (Z.shiftr v 8) 8) 8)].
    rewrite !Z.shiftr_shiftr by lia. cbn [int32].
    rewrite Z.shiftr_0_r. reflexivity. }
  destruct native; cbn [object_representation]; rewrite E; reflexivity.
Qed.

Lemma int32_length (native : endianness) (v : Z) : length (int32 native v) = 4%nat.
Proof. destruct native; reflexivity. Qed.

Lemma read_int32_int32 (native : endianness) (v : Z) (rest : list byte) :
  read_int32 native (int32 native v ++ rest) = Some (to_int v, rest).
Proof.
  assert (E : forall b0 b1 b2 b3,
             int32 LittleEndian v = [b0; b1; b2; b3] ->
             to_int (le_combine [b0; b1; b2; b3]) = to_int v).
  { intros b0 b1 b2 b3 <-.
    rewrite <- object_representation_int32. cbn [object_representation].
    rewrite le_combine_split. apply to_int_mod. }
  destruct native; cbn [int32 app read_int32]; rewrite E; reflexivity.
Qed.

(** ** Buffers and strings *)

Lemma fold_push_back (Word Buffer : list byte) :
  fold_left push_back Word Buffer = Buffer ++ Word.
Proof.
  revert Buffer. induction Word as [|b Word IH]; intros Buffer; cbn [fold_left].
  - now rewrite app_nil_r.
  - rewrite IH. unfold push_back. now rewrite <- app_assoc.
Qed.

Lemma WriteWordOut_app (Buffer Word : list byte) :
  WriteWordOut Buffer Word = Buffer ++ Word.
Proof. apply fold_push_back. Qed.

Lemma WriteStringOut_app (Buffer Word : list byte) :
  WriteStringOut Buffer Word = Buffer ++ cstring Word.
Proof.
  unfold WriteStringOut, push_back, cstring.
  rewrite fold_push_back. now rewrite app_assoc.
Qed.

Lemma WriteIntOut_app (native : endianness) (Buffer : list byte) (value : Z) :
  WriteIntOut native Buffer value = Buffer ++ int32 native value.
Proof.
  unfold WriteIntOut. rewrite fold_push_back.
  now rewrite object_representation_int32.
Qed.

Lemma string_of_chars_terminated (buf : list byte) :
  has_nul buf = true -> string_of_chars buf = Ok (held_string buf).
Proof.
  unfold has_nul.
  induction buf as [|b buf IH]; cbn [existsb string_of_chars held_string].
  - discriminate.
  - destruct (is_nul b); [reflexivity|]. cbn [orb]. intros H.
    rewrite (IH H). reflexivity.
Qed.

Lemma string_of_chars_overread (buf : list byte) :
  has_nul buf = false -> string_of_chars buf = Fault BufferOverread.
Proof.
  unfold has_nul.
  induction buf as [|b buf IH]; cbn [existsb string_of_chars].
  - reflexivity.
  - destruct (is_nul b); [discriminate|]. cbn [orb]. intros H.
    rewrite (IH H). reflexivity.
Qed.

Lemma held_string_no_nul (buf : list byte) : has_nul (held_string buf) = false.
Proof.
  unfold has_nul.
  induction buf as [|b buf IH]; cbn [held_string]; [reflexivity|].
  destruct (is_nul b) eqn:E; [reflexivity|].
  cbn [existsb]. now rewrite E, IH.
Qed.

Lemma read_cstring_cstring (s rest : list byte) :
  has_nul s = false -> read_cstring (cstring s ++ rest) = Some (s, rest).
Proof.
  unfold has_nul, cstring.
  induction s as [|b s IH]; cbn [existsb app read_cstring].
  - reflexivity.
  - destruct (is_nul b); [discriminate|]. cbn [orb]. intros H.
    rewrite (IH H). reflexivity.
Qed.

Lemma strncpy_bytes_length (src : list byte) (n : nat) :
  length (strncpy_bytes src n) = n.
Proof.
  revert src. induction n as [|n IH]; intros src; [reflexivity|].
  cbn [strncpy_bytes]. destruct src as [|b src].
  - apply repeat_length.
  - destruct (is_nul b); [apply repeat_length|]. cbn [length]. now rewrite IH.
Qed.

Lemma strncpy_whole (dest src : list byte) (n : nat) :
  length dest = n -> strncpy dest src n = strncpy_bytes src n.
Proof.
  intros H. unfold strncpy.
  rewrite skipn_all2 by lia. apply app_nil_r.
Qed.

Lemma bounded_bytes (s : list byte) : bounded s = strncpy_bytes s NAME_SIZE.
Proof. apply strncpy_whole, repeat_length. Qed.

Lemma held_string_zeros (n : nat) : held_string (repeat Byte.x00 (S n)) = [].
Proof. reflexivity. Qed.

(** A string shorter than the count is copied whole and terminated. *)
Lemma strncpy_bytes_fits (s : list byte) (n : nat) :
  has_nul s = false -> (length s < n)%nat ->
  has_nul (strncpy_bytes s n) = true /\ held_string (strncpy_bytes s n) = s.
Proof.
  unfold has_nul. revert n.
  induction s as [|b s IH]; intros n Hs Hn.
  - destruct n as [|n]; [cbn in Hn; lia|]. split; reflexivity.
  - destruct n as [|n]; [cbn in Hn; lia|].
    cbn [existsb] in Hs. apply orb_false_iff in Hs as [Hb Hs].
    cbn [strncpy_bytes]. rewrite Hb.
    cbn [length] in Hn.
    destruct (IH n Hs ltac:(lia)) as [H1 H2].
    cbn [existsb held_string]. rewrite Hb, H1, H2. split; reflexivity.
Qed.

(** A string with the count or more bytes fills the buffer and leaves no
    terminator in it. *)
Lemma strncpy_bytes_truncates (s : list byte) (n : nat) :
  has_nul s = false -> (n <= length s)%nat ->
  strncpy_bytes s n = firstn n s /\ has_nul (strncpy_bytes s n) = false.
Proof.
  unfold has_nul. revert s.
  induction n as [|n IH]; intros s Hs Hn.
  - split; reflexivity.
  - destruct s as [|b s]; [cbn in Hn; lia|].
    cbn [existsb] in Hs. apply orb_false_iff in Hs as [Hb Hs].
    cbn [length] in Hn.
    destruct (IH s Hs ltac:(lia)) as [H1 H2].
    cbn [strncpy_bytes firstn]. rewrite Hb. cbn [existsb].
    rewrite Hb, H2, H1. split; reflexivity.
Qed.

(** ** The encoder writes the format *)

Lemma for_cells_writes {A : Type} (g : A -> list byte)
  (body : A -> list byte -> result (list byte)) (arr pre : list A)
  (Buffer : list byte) :
  (forall a, In a arr -> forall B, body a B = Ok (B ++ g a)) ->
  for_cells (pre ++ arr) (length pre) (length arr) body Buffer
  = Ok (Buffer ++ flat_map g arr).
Proof.
  revert pre Buffer.
  induction arr as [|a arr IH]; intros pre Buffer Hbody; cbn [length for_cells flat_map].
  - now rewrite app_nil_r.
  - rewrite nth_error_app2, Nat.sub_diag by lia. cbn [nth_error].
    rewrite (Hbody a (or_introl eq_refl)). cbn [bind].
    replace (pre ++ a :: arr) with ((pre ++ [a]) ++ arr)
      by (rewrite <- app_assoc; reflexivity).
    replace (S (length pre)) with (length (pre ++ [a]))
      by (rewrite length_app; cbn; lia).
    rewrite IH by (intros; apply Hbody; now right).
    now rewrite <- app_assoc.
Qed.

Lemma for_each_writes {A : Type} (g : A -> list byte)
  (body : A -> list byte -> result (list byte)) (arr : list A) (len : Z)
  (Buffer : list byte) :
  len = Z.of_nat (length arr) ->
  (forall a, In a arr -> forall B, body a B = Ok (B ++ g a)) ->
  for_each arr len body Buffer = Ok (Buffer ++ flat_map g arr).
Proof.
  intros -> Hbody. unfold for_each.
  destruct (Z.ltb_spec (Z.of_nat (length arr)) 0) as [H|_]; [lia|].
  rewrite Nat2Z.id.
  apply (for_cells_writes g body arr [] Buffer Hbody).
Qed.

Lemma main_write_field_format (native : endianness) (F : DNAField.t)
  (Buffer : list byte) :
  field_terminated F = true ->
  main_write_field native F Buffer
  = Ok (Buffer ++ format_field native (field_entry F)).
Proof.
  unfold field_terminated. rewrite andb_true_iff. intros [Hn Ht].
  unfold main_write_field.
  rewrite (string_of_chars_terminated _ Hn). cbn [bind].
  rewrite (string_of_chars_terminated _ Ht). cbn [bind].
  rewrite !WriteIntOut_app, !WriteStringOut_app.
  unfold format_field, field_entry; cbn [fe_name fe_type fe_offset fe_size fe_align fe_array fe_flags].
  now rewrite <- !app_assoc.
Qed.

Lemma flat_map_map {A B C : Type} (f : A -> B) (g : B -> list C) (l : list A) :
  flat_map g (map f l) = flat_map (fun a => g (f a)) l.
Proof.
  induction l as [|a l IH]; cbn [map flat_map]; [reflexivity|]. now rewrite IH.
Qed.

Lemma main_write_struct_format (native : endianness) (S : DNAStruct.t)
  (Buffer : list byte) :
  struct_sized S = true -> struct_terminated S = true ->
  main_write_struct native S Buffer
  = Ok (Buffer ++ format_struct native (struct_entry S)).
Proof.
  unfold struct_sized, struct_terminated.
  rewrite Z.eqb_eq, andb_true_iff, forallb_forall. intros Hlen [Hn Hf].
  unfold main_write_struct.
  rewrite (string_of_chars_terminated _ Hn). cbn [bind].
  rewrite (for_each_writes (fun F => format_field native (field_entry F)))
    by (auto using main_write_field_format).
  rewrite !WriteIntOut_app, !WriteStringOut_app.
  unfold format_struct, struct_entry; cbn [se_name se_size se_fields].
  rewrite length_map, <- Hlen, flat_map_map.
  now rewrite <- !app_assoc.
Qed.

Lemma main_BufferOut_format (native : endianness) (DNA : SDNA.t) :
  blocks_sized DNA = true -> names_terminated DNA = true ->
  main_BufferOut native DNA = Ok (SDNA_format native (catalog DNA)).
Proof.
  unfold blocks_sized, names_terminated.
  rewrite andb_true_iff, Z.eqb_eq, !forallb_forall. intros [Hlen Hs] Hn.
  unfold main_BufferOut.
  rewrite (for_each_writes (fun S => format_struct native (struct_entry S)))
    by (auto using main_write_struct_format).
  rewrite WriteIntOut_app, WriteWordOut_app.
  unfold SDNA_format, catalog.
  rewrite length_map, <- Hlen, flat_map_map.
  cbn [app]. now rewrite <- !app_assoc.
Qed.

(** ** The reader inverts the format *)

Lemma read_field_format (native : endianness) (F : FieldEntry) (rest : list byte) :
  field_entry_ok F = true ->
  read_field native (format_field native F ++ rest) = Some (F, rest).
Proof.
  unfold field_entry_ok. rewrite !andb_true_iff, !negb_true_iff, !in_int_range.
  intros [[[[[[Hn Ht] Ho] Hs] Hal] Har] Hf].
  unfold format_field, read_field. rewrite <- !app_assoc.
  rewrite (read_cstring_cstring _ _ Hn), (read_cstring_cstring _ _ Ht).
  rewrite !read_int32_int32, !to_int_id by assumption.
  now destruct F.
Qed.

Lemma read_repeated_format {A : Type} (read : list byte -> option (A * list byte))
  (fmt : A -> list byte) (ok : A -> bool) :
  (forall a rest, ok a = true -> read (fmt a ++ rest) = Some (a, rest)) ->
  forall l rest, forallb ok l = true ->
    read_repeated read (length l) (flat_map fmt l ++ rest) = Some (l, rest).
Proof.
  intros Hread.
  induction l as [|a l IH]; intros rest Hok; cbn [length flat_map read_repeated].
  - reflexivity.
  - cbn [forallb] in Hok. apply andb_true_iff in Hok as [Ha Hl].
    rewrite <- app_assoc, (Hread _ _ Ha), (IH _ Hl). reflexivity.
Qed.

Lemma read_struct_format (native : endianness) (S : StructEntry) (rest : list byte) :
  struct_entry_ok S = true ->
  read_struct native (format_struct native S ++ rest) = Some (S, rest).
Proof.
  unfold struct_entry_ok. rewrite !andb_true_iff, !negb_true_iff, !in_int_range.
  intros [[[Hn Hs] Hc] Hf].
  unfold format_struct, read_struct. rewrite <- !app_assoc.
  rewrite (read_cstring_cstring _ _ Hn).
  rewrite !read_int32_int32, !to_int_id by assumption.
  destruct (Z.ltb_spec (Z.of_nat (length (se_fields S))) 0) as [H|_]; [lia|].
  rewrite Nat2Z.id.
  rewrite (read_repeated_format _ _ _ (read_field_format native) _ _ Hf).
  now destruct S.
Qed.

Lemma SDNA_read_format (native : endianness) (C : Catalog) :
  catalog_ok C = true -> SDNA_read native (SDNA_format native C) = Some C.
Proof.
  unfold catalog_ok. rewrite andb_true_iff, in_int_range. intros [Hc Hs].
  unfold SDNA_format. change SDNA_magic with [Byte.x53; Byte.x44; Byte.x4e; Byte.x41].
  cbn [app SDNA_read].
  destruct (list_eq_dec Byte.byte_eq_dec _ SDNA_magic) as [_|n];
    [|exfalso; apply n; reflexivity].
  rewrite read_int32_int32, to_int_id by assumption.
  destruct (Z.ltb_spec (Z.of_nat (length C)) 0) as [H|_]; [lia|].
  rewrite Nat2Z.id.
  rewrite <- (app_nil_r (flat_map _ C)).
  now rewrite (read_repeated_format _ _ _ (read_struct_format native) _ _ Hs).
Qed.

Lemma field_entry_readable (F : DNAField.t) :
  field_ints F = true -> field_entry_ok (field_entry F) = true.
Proof.
  unfold field_ints, field_entry_ok, field_entry;
    cbn [fe_name fe_type fe_offset fe_size fe_align fe_array fe_flags].
  rewrite !held_string_no_nul. cbn [negb andb]. trivial.
Qed.

Lemma struct_entry_readable (S : DNAStruct.t) :
  struct_sized S = true -> struct_ints S = true ->
  struct_entry_ok (struct_entry S) = true.
Proof.
  unfold struct_sized, struct_ints, struct_entry_ok, struct_entry;
    cbn [se_name se_size se_fields].
  rewrite Z.eqb_eq, !andb_true_iff, held_string_no_nul, length_map.
  intros <- [[Hs Hl] Hf]. repeat split; trivial.
  rewrite forallb_forall in *. intros fe Hin.
  apply in_map_iff in Hin as [F [<- Hin]]. auto using field_entry_readable.
Qed.

Lemma catalog_readable (DNA : SDNA.t) :
  blocks_sized DNA = true -> ints_typed DNA = true ->
  catalog_ok (catalog DNA) = true.
Proof.
  unfold blocks_sized, ints_typed, catalog_ok, catalog.
  rewrite !andb_true_iff, Z.eqb_eq, length_map.
  intros [<- Hs] [Hl Hi]. split; [assumption|].
  rewrite forallb_forall in *. intros se Hin.
  apply in_map_iff in Hin as [S [<- Hin]]. auto using struct_entry_readable.
Qed.

(** ** Growing a block *)

Lemma store_last {A : Type} (arr : list A) (old x : A) :
  store (arr ++ [old]) (length arr) x = arr ++ [x].
Proof.
  induction arr as [|a arr IH]; cbn [app length store]; [reflexivity|].
  now rewrite IH.
Qed.

Lemma realloc_one_more {A : Type} (fresh : A) (ptr : list A) (len : Z) :
  len = Z.of_nat (length ptr) ->
  realloc (Some fresh) ptr (Z.to_nat (len + 1)) = Some (ptr ++ [fresh])
  /\ Z.to_nat len = length ptr.
Proof.
  intros ->. rewrite Nat2Z.id. split; [|reflexivity].
  unfold realloc.
  replace (Z.to_nat (Z.of_nat (length ptr) + 1)) with (S (length ptr)) by lia.
  rewrite firstn_all2 by lia.
  replace (S (length ptr) - length ptr)%nat with 1%nat by lia.
  reflexivity.
Qed.

Lemma through_last {A : Type} (arr : list A) (a : A) (f : A -> result A) :
  through (arr ++ [a]) (length arr) f = (a' <- f a ;; Ok (arr ++ [a'])).
Proof.
  unfold through.
  rewrite nth_error_app2, Nat.sub_diag by lia. cbn [nth_error].
  destruct (f a) as [a'|e]; cbn [bind]; [|reflexivity].
  now rewrite store_last.
Qed.

(** The entries [DNA_add_struct] and [DNA_add_field] leave in the new cell. *)
Lemma DNA_add_struct_grows (fresh : DNAStruct.t) (DNA : SDNA.t) (name : list byte) :
  SDNA._TypesLen DNA = Z.of_nat (length (SDNA._Types DNA)) ->
  DNA_add_struct (Some fresh) DNA name
  = (SDNA.mk (SDNA._Types DNA ++ [DNAStruct.set_name DNAStruct.zero (bounded name)])
       (SDNA._TypesLen DNA + 1),
     Some (length (SDNA._Types DNA))).
Proof.
  intros Hlen. unfold DNA_add_struct.
  destruct (realloc_one_more fresh _ _ Hlen) as [-> ->].
  now rewrite store_last.
Qed.

Lemma DNA_add_field_grows (fresh : DNAField.t) (S : DNAStruct.t) (name : list byte) :
  DNAStruct._FieldsLen S = Z.of_nat (length (DNAStruct._Fields S)) ->
  DNA_add_field (Some fresh) S name
  = (DNAStruct.mk (DNAStruct.name S) (DNAStruct.size S)
       (DNAStruct._Fields S ++ [DNAField.set_name DNAField.zero (bounded name)])
       (DNAStruct._FieldsLen S + 1),
     Some (length (DNAStruct._Fields S))).
Proof.
  intros Hlen. unfold DNA_add_field.
  destruct (realloc_one_more fresh _ _ Hlen) as [-> ->].
  now rewrite store_last.
Qed.

Lemma DNA_add_struct_NULL (blk : option DNAStruct.t) (DNA : SDNA.t) (name : list byte) :
  snd (DNA_add_struct blk DNA name) = None <-> blk = None.
Proof.
  unfold DNA_add_struct, realloc. destruct blk; cbn [snd]; split; congruence.
Qed.

Lemma DNA_add_field_NULL (blk : option DNAField.t) (S : DNAStruct.t) (name : list byte) :
  snd (DNA_add_field blk S name) = None <-> blk = None.
Proof.
  unfold DNA_add_field, realloc. destruct blk; cbn [snd]; split; congruence.
Qed.

(** One iteration of the field loop appends the classified field. *)
Lemma run_field_appends (CTX : ASTContext) (fresh : DNAField.t)
  (S : DNAStruct.t) (FD : FieldDecl) :
  struct_sized S = true ->
  run_field CTX (Some fresh) S FD
  = (F <- run_field_info CTX (getType FD)
            (Width (getTypeInfo CTX (getType FD)) / 8)
            (Align (getTypeInfo CTX (getType FD)) / 8)
            (getFieldOffset FD)
            (DNAField.set_name DNAField.zero (bounded (getNameAsString FD))) ;;
     Ok (DNAStruct.mk (DNAStruct.name S) (DNAStruct.size S)
           (DNAStruct._Fields S ++ [F]) (DNAStruct._FieldsLen S + 1))).
Proof.
  unfold struct_sized. rewrite Z.eqb_eq. intros Hlen.
  unfold run_field. rewrite (DNA_add_field_grows fresh S _ Hlen).
  cbn [DNAStruct._Fields DNAStruct.name DNAStruct.size DNAStruct._FieldsLen].
  rewrite through_last.
  destruct (run_field_info _ _ _ _ _ _); reflexivity.
Qed.

(** ** Bounded storage *)

Lemma bounded_fits (s : list byte) :
  fits s = true -> has_nul (bounded s) = true /\ held_string (bounded s) = s.
Proof.
  unfold fits. rewrite andb_true_iff, negb_true_iff, Nat.ltb_lt. intros [Hs Hl].
  rewrite bounded_bytes. now apply strncpy_bytes_fits.
Qed.

Lemma bounded_truncates (s : list byte) :
  has_nul s = false -> (NAME_SIZE <= length s)%nat ->
  bounded s = firstn NAME_SIZE s /\ has_nul (bounded s) = false.
Proof.
  intros Hs Hl. rewrite bounded_bytes. now apply strncpy_bytes_truncates.
Qed.

Lemma bounded_length (s : list byte) : length (bounded s) = NAME_SIZE.
Proof. rewrite bounded_bytes. apply strncpy_bytes_length. Qed.

(** ** Array shapes *)

Lemma simplest_array_element (T : QualType) :
  isArrayType T = true ->
  getElementType (simplest_array T) = Some (innermost_element T)
  /\ isArrayType (innermost_element T) = false.
Proof.
  induction T as [s W A|s|s P _|s E IH n]; cbn [isArrayType]; try discriminate.
  intros _. cbn [simplest_array innermost_element].
  destruct (isArrayType E) eqn:HE.
  - now apply IH.
  - cbn [getElementType]. destruct E; cbn in HE; try discriminate; split; reflexivity.
Qed.

Lemma Width_element_count (CTX : ASTContext) (T : QualType) :
  Width (getTypeInfo CTX T)
  = Width (getTypeInfo CTX (innermost_element T)) * element_count T.
Proof.
  induction T as [s W A|s|s P _|s E IH n];
    cbn [getTypeInfo innermost_element element_count Width];
    try rewrite IH; lia.
Qed.

(** Whole elements of a positive byte size: the byte sizes divide to the count. *)
Lemma byte_sizes_divide (CTX : ASTContext) (T : QualType) :
  Width (getTypeInfo CTX (innermost_element T)) mod 8 = 0 ->
  Width (getTypeInfo CTX (innermost_element T)) / 8 <> 0 ->
  (Width (getTypeInfo CTX T) / 8)
  / (Width (getTypeInfo CTX (innermost_element T)) / 8)
  = element_count T.
Proof.
  intros Hmod Hnz. rewrite (Width_element_count CTX T).
  set (w := Width (getTypeInfo CTX (innermost_element T))) in *.
  assert (Hw : w = 8 * (w / 8)) by (apply Z.div_exact; lia).
  set (s := w / 8) in *. rewrite Hw.
  replace (8 * s * element_count T) with (s * element_count T * 8) by lia.
  rewrite Z.div_mul by lia.
  rewrite Z.mul_comm. now apply Z.div_mul.
Qed.

(** ** The three branches of the classification *)

Lemma run_field_info_pointer (CTX : ASTContext) (FieldQual Pointee : QualType)
  (size align offset : Z) (Field : DNAField.t) :
  getPointeeType FieldQual = Some Pointee ->
  run_field_info CTX FieldQual size align offset Field
  = Ok (DNAField.mk (DNAField.name Field)
          (strncpy (DNAField.type Field) (getAsString Pointee) NAME_SIZE)
          (to_int offset) (to_int size) (to_int align) 1
          (if isFunctionType Pointee
           then Z.lor (Z.lor (DNAField.flags Field) DNA_FIELD_IS_POINTER)
                  DNA_FIELD_IS_FUNCTION
           else Z.lor (DNAField.flags Field) DNA_FIELD_IS_POINTER)).
Proof.
  destruct FieldQual as [s W A|s|s P|s E n]; cbn [getPointeeType]; try discriminate.
  intros [= ->].
  unfold run_field_info, isFunctionPointerType.
  cbn [isPointerType getPointeeType orb deref bind].
  destruct (isFunctionType Pointee); reflexivity.
Qed.

Lemma run_field_info_array (CTX : ASTContext) (FieldQual : QualType)
  (size align offset : Z) (Field : DNAField.t) :
  isArrayType FieldQual = true ->
  let Elem := innermost_element FieldQual in
  let elem_size := Width (getTypeInfo CTX Elem) / 8 in
  run_field_info CTX FieldQual size align offset Field
  = if elem_size =? 0 then Fault DivisionByZero
    else
      Ok (DNAField.mk (DNAField.name Field)
            (strncpy (DNAField.type Field)
               (getAsString match getPointeeType Elem with
                            | Some Pointee => Pointee
                            | None => Elem
                            end) NAME_SIZE)
            (to_int offset) (to_int size) (to_int align)
            (to_int (size / elem_size))
            (if isPointerType Elem
             then Z.lor (DNAField.flags Field) DNA_FIELD_IS_POINTER
             else DNAField.flags Field)).
Proof.
  intros HA Elem elem_size.
  destruct (simplest_array_element FieldQual HA) as [HE _].
  unfold run_field_info, isFunctionPointerType, getAsArrayTypeUnsafe.
  rewrite HA.
  destruct FieldQual as [s W A|s|s P|s E n]; cbn [isArrayType] in HA; try discriminate.
  cbn [isPointerType getPointeeType orb deref bind].
  rewrite HE. cbn [deref bind]. fold Elem. fold elem_size.
  destruct (elem_size =? 0); [reflexivity|].
  clearbody elem_size.
  destruct Elem as [s' W' A'|s'|s' P'|s' E' n']; reflexivity.
Qed.

Lemma run_field_info_plain (CTX : ASTContext) (FieldQual : QualType)
  (size align offset : Z) (Field : DNAField.t) :
  isPointerType FieldQual = false -> isArrayType FieldQual = false ->
  run_field_info CTX FieldQual size align offset Field
  = Ok (DNAField.mk (DNAField.name Field)
          (strncpy (DNAField.type Field) (getAsString FieldQual) NAME_SIZE)
          (to_int offset) (to_int size) (to_int align) 1 (DNAField.flags Field)).
Proof.
  destruct FieldQual as [s W A|s|s P|s E n]; cbn [isPointerType isArrayType];
    try discriminate; reflexivity.
Qed.

(** ** Classification of array and pointer fields *)

(** C3: for every array field (a field whose own type is an array, hence not a
    pointer) with an innermost element of nonzero byte size and a multiplicity
    that is an [int], the loop reaches the innermost non-array element type
    and [array] is the field's total byte size divided by that element's byte
    size; when the element occupies whole bytes this is the product of all
    dimensions ([T x[2][3]] gives 6).  When the innermost element is not a
    pointer, [type] is stored from that element's name, and reads back as the
    name when the name fits the storage. *)
Theorem array_field_collapses_dimensions (CTX : ASTContext) (fresh : DNAField.t)
  (S : DNAStruct.t) (FD : FieldDecl) :
  struct_sized S = true ->
  isArrayType (getType FD) = true ->
  byte_size CTX (innermost_element (getType FD)) <> 0 ->
  int_range (byte_size CTX (getType FD)
             / byte_size CTX (innermost_element (getType FD))) ->
  exists F,
    run_field CTX (Some fresh) S FD
    = Ok (DNAStruct.mk (DNAStruct.name S) (DNAStruct.size S)
            (DNAStruct._Fields S ++ [F]) (DNAStruct._FieldsLen S + 1))
    /\ isArrayType (innermost_element (getType FD)) = false
    /\ DNAField.array F
       = byte_size CTX (getType FD)
         / byte_size CTX (innermost_element (getType FD))
    /\ (Width (getTypeInfo CTX (innermost_element (getType FD))) mod 8 = 0 ->
        DNAField.array F = element_count (getType FD))
    /\ (isPointerType (innermost_element (getType FD)) = false ->
        DNAField.type F = bounded (getAsString (innermost_element (getType FD)))
        /\ DNAField.flags F = 0
        /\ (fits (getAsString (innermost_element (getType FD))) = true ->
            fe_type (field_entry F)
            = getAsString (innermost_element (getType FD)))).
Proof.
  unfold byte_size. intros HS HA Hnz Hint.
  rewrite (run_field_appends CTX fresh S FD HS).
  rewrite (run_field_info_array CTX _ _ _ _ _ HA). cbv zeta.
  destruct (Z.eqb_spec (Width (getTypeInfo CTX (innermost_element (getType FD))) / 8) 0)
    as [E|_]; [contradiction|].
  cbn [bind]. eexists. split; [reflexivity|].
  cbn [DNAField.array DNAField.type DNAField.flags].
  rewrite (to_int_id _ Hint).
  split; [apply (simplest_array_element _ HA)|].
  split; [reflexivity|].
  split; [intros Hmod; now apply byte_sizes_divide|].
  intros HP.
  destruct (innermost_element (getType FD)) as [s W A|s|s P|s E n] eqn:HE;
    cbn [isPointerType] in HP; try discriminate;
    cbn [getPointeeType isPointerType DNAField.zero DNAField.set_name
         DNAField.type DNAField.flags];
    (split; [reflexivity|]); (split; [reflexivity|]);
    intros Hfit; cbn [field_entry fe_type DNAField.type];
    apply (bounded_fits _ Hfit).
Qed.

(** With an innermost element of byte size zero the division has no value:
    the iteration stops there. *)
Lemma zero_sized_element_faults (CTX : ASTContext) (fresh : DNAField.t)
  (S : DNAStruct.t) (FD : FieldDecl) :
  struct_sized S = true ->
  isArrayType (getType FD) = true ->
  byte_size CTX (innermost_element (getType FD)) = 0 ->
  run_field CTX (Some fresh) S FD = Fault DivisionByZero.
Proof.
  unfold byte_size. intros HS HA Hz.
  rewrite (run_field_appends CTX fresh S FD HS).
  rewrite (run_field_info_array CTX _ _ _ _ _ HA). cbv zeta.
  rewrite Hz. reflexivity.
Qed.

Lemma array_field_collapses_dimensions_witness :
  exists F,
    run_field LP64 (Some dirty_field) fresh_struct grid_field
    = Ok (DNAStruct.mk (DNAStruct.name fresh_struct) 0 [F] 1)
    /\ DNAField.array F = 6
    /\ fe_type (field_entry F) = str "int".
Proof.
  destruct (array_field_collapses_dimensions LP64 dirty_field fresh_struct grid_field)
    as [F [Hrun [_ [Harr [_ Hty]]]]].
  - reflexivity.
  - reflexivity.
  - vm_compute. discriminate.
  - unfold int_range. vm_compute. split; [discriminate|reflexivity].
  - exists F. split; [exact Hrun|]. split; [exact Harr|].
    apply Hty; reflexivity.
Defined.

(** C4: a field whose own type is a pointer or a function pointer takes the
    pointer branch, whatever its pointee is (an array type included): the
    IsPointer flag is set, and IsFunctionPointer with it exactly for a function
    pointer; [type] is stored from the pointee's name, and reads back as that
    name when it fits the storage; [array] stays 1. *)
Theorem pointer_field_takes_pointer_branch (CTX : ASTContext) (fresh : DNAField.t)
  (S : DNAStruct.t) (FD : FieldDecl) :
  struct_sized S = true ->
  isPointerType (getType FD) || isFunctionPointerType (getType FD) = true ->
  exists Pointee F,
    getPointeeType (getType FD) = Some Pointee
    /\ run_field CTX (Some fresh) S FD
       = Ok (DNAStruct.mk (DNAStruct.name S) (DNAStruct.size S)
               (DNAStruct._Fields S ++ [F]) (DNAStruct._FieldsLen S + 1))
    /\ Z.land (DNAField.flags F) DNA_FIELD_IS_POINTER <> 0
    /\ DNAField.flags F
       = (if isFunctionPointerType (getType FD)
          then Z.lor DNA_FIELD_IS_POINTER DNA_FIELD_IS_FUNCTION
          else DNA_FIELD_IS_POINTER)
    /\ DNAField.type F = bounded (getAsString Pointee)
    /\ (fits (getAsString Pointee) = true ->
        fe_type (field_entry F) = getAsString Pointee)
    /\ DNAField.array F = 1.
Proof.
  intros HS HP.
  assert (Hptr : exists Pointee, getPointeeType (getType FD) = Some Pointee).
  { unfold isFunctionPointerType in HP.
    destruct (getType FD) as [s W A|s|s P|s E n]; cbn in HP; try discriminate.
    now exists P. }
  destruct Hptr as [Pointee HPointee]. exists Pointee.
  rewrite (run_field_appends CTX fresh S FD HS).
  rewrite (run_field_info_pointer CTX _ Pointee _ _ _ _ HPointee).
  cbn [bind]. eexists. split; [exact HPointee|]. split; [reflexivity|].
  cbn [DNAField.array DNAField.type DNAField.flags DNAField.zero DNAField.set_name].
  unfold isFunctionPointerType. rewrite HPointee.
  repeat split;
    try (destruct (isFunctionType Pointee); (reflexivity || discriminate)).
  intros Hfit. cbn [field_entry fe_type DNAField.type].
  apply (bounded_fits _ Hfit).
Qed.

Lemma pointer_field_takes_pointer_branch_witness :
  exists F,
    run_field LP64 (Some dirty_field) fresh_struct row_field
    = Ok (DNAStruct.mk (DNAStruct.name fresh_struct) 0 [F] 1)
    /\ DNAField.flags F = DNA_FIELD_IS_POINTER
    /\ fe_type (field_entry F) = str "int[3]"
    /\ DNAField.array F = 1.
Proof.
  destruct (pointer_field_takes_pointer_branch LP64 dirty_field fresh_struct row_field)
    as [Pointee [F [HP [Hrun [_ [Hfl [_ [Hty Harr]]]]]]]].
  - reflexivity.
  - reflexivity.
  - exists F. split; [exact Hrun|]. split; [exact Hfl|]. split; [|exact Harr].
    injection HP as <-. apply Hty; reflexivity.
Defined.

(** C5: an array field whose innermost element type is a pointer is classified
    by the array branch: with pointers of a whole, positive number of bytes
    and an element count [N] that is an [int], the IsPointer flag is set (and
    no other), [array] is [N], and [type] is stored from the name of the
    pointee of one element, reading back as that name when it fits. *)
Theorem pointer_array_field_classified (CTX : ASTContext) (fresh : DNAField.t)
  (S : DNAStruct.t) (FD : FieldDecl) (Pointee : QualType) :
  struct_sized S = true ->
  isArrayType (getType FD) = true ->
  getPointeeType (innermost_element (getType FD)) = Some Pointee ->
  0 < PointerWidth CTX ->
  PointerWidth CTX mod 8 = 0 ->
  int_range (element_count (getType FD)) ->
  exists F,
    run_field CTX (Some fresh) S FD
    = Ok (DNAStruct.mk (DNAStruct.name S) (DNAStruct.size S)
            (DNAStruct._Fields S ++ [F]) (DNAStruct._FieldsLen S + 1))
    /\ Z.land (DNAField.flags F) DNA_FIELD_IS_POINTER <> 0
    /\ DNAField.flags F = DNA_FIELD_IS_POINTER
    /\ DNAField.array F = element_count (getType FD)
    /\ DNAField.type F = bounded (getAsString Pointee)
    /\ (fits (getAsString Pointee) = true ->
        fe_type (field_entry F) = getAsString Pointee).
Proof.
  intros HS HA HP Hpos Hmod Hint.
  assert (HW : Width (getTypeInfo CTX (innermost_element (getType FD)))
               = PointerWidth CTX).
  { destruct (innermost_element (getType FD)) as [s W A|s|s P|s E n];
      cbn [getPointeeType] in HP; try discriminate. reflexivity. }
  assert (Hnz : PointerWidth CTX / 8 <> 0).
  { pose proof (Z.div_exact (PointerWidth CTX) 8 ltac:(lia)) as [_ H].
    specialize (H Hmod). lia. }
  rewrite (run_field_appends CTX fresh S FD HS).
  rewrite (run_field_info_array CTX _ _ _ _ _ HA). cbv zeta.
  rewrite HW.
  destruct (Z.eqb_spec (PointerWidth CTX / 8) 0) as [E|_]; [contradiction|].
  cbn [bind]. eexists. split; [reflexivity|].
  cbn [DNAField.array DNAField.type DNAField.flags DNAField.zero DNAField.set_name].
  rewrite HP.
  assert (HPt : isPointerType (innermost_element (getType FD)) = true).
  { destruct (innermost_element (getType FD)) as [s W A|s|s P|s E n];
      cbn [getPointeeType] in HP; try discriminate. reflexivity. }
  rewrite HPt.
  pose proof (byte_sizes_divide CTX (getType FD)) as Hdiv.
  rewrite HW in Hdiv. rewrite (Hdiv Hmod Hnz), (to_int_id _ Hint).
  repeat split; try reflexivity; try discriminate.
  intros Hfit. cbn [field_entry fe_type DNAField.type].
  apply (bounded_fits _ Hfit).
Qed.

Lemma pointer_array_field_classified_witness :
  exists F,
    run_field LP64 (Some dirty_field) fresh_struct slots_field
    = Ok (DNAStruct.mk (DNAStruct.name fresh_struct) 0 [F] 1)
    /\ DNAField.flags F = DNA_FIELD_IS_POINTER
    /\ DNAField.array F = 4
    /\ fe_type (field_entry F) = str "Node".
Proof.
  destruct (pointer_array_field_classified LP64 dirty_field fresh_struct slots_field
              Node_type)
    as [F [Hrun [_ [Hfl [Harr [_ Hty]]]]]].
  - reflexivity.
  - reflexivity.
  - reflexivity.
  - reflexivity.
  - reflexivity.
  - unfold int_range. vm_compute. split; [discriminate|reflexivity].
  - exists F. split; [exact Hrun|]. split; [exact Hfl|]. split; [exact Harr|].
    apply Hty; reflexivity.
Defined.

(** ** The output of the encoder *)

(** C1: on a catalog whose blocks have their recorded lengths and whose name
    buffers hold terminated strings, the buffer [main] builds is exactly the
    binary format: the four bytes "SDNA" without terminator, the struct count,
    then per struct in catalog order its name with one NUL, its size, its
    field count and per field in order the name, the type and the five
    integers; every integer takes four bytes in the producer's byte order. *)
Theorem encoder_output_is_the_format (native : endianness) (DNA : SDNA.t) :
  blocks_sized DNA = true ->
  names_terminated DNA = true ->
  main_BufferOut native DNA
  = Ok ([Byte.x53; Byte.x44; Byte.x4e; Byte.x41]
        ++ int32 native (SDNA._TypesLen DNA)
        ++ flat_map
             (fun S =>
                cstring (se_name S) ++ int32 native (se_size S)
                ++ int32 native (Z.of_nat (length (se_fields S)))
                ++ flat_map
                     (fun F =>
                        cstring (fe_name F) ++ cstring (fe_type F)
                        ++ int32 native (fe_offset F) ++ int32 native (fe_size F)
                        ++ int32 native (fe_align F) ++ int32 native (fe_array F)
                        ++ int32 native (fe_flags F))
                     (se_fields S))
             (catalog DNA))
  /\ (forall v, length (int32 native v) = 4%nat)
  /\ (forall v, int32 native v = object_representation native v).
Proof.
  intros Hsized Hterm. split; [|split].
  - rewrite (main_BufferOut_format native DNA Hsized Hterm).
    unfold SDNA_format, catalog. rewrite length_map.
    unfold blocks_sized in Hsized.
    apply andb_true_iff in Hsized as [Hlen _]. apply Z.eqb_eq in Hlen.
    rewrite <- Hlen. reflexivity.
  - apply int32_length.
  - intros v. symmetry. apply object_representation_int32.
Qed.

Lemma encoder_output_is_the_format_witness :
  exists rest,
    main_BufferOut LittleEndian Vec3_catalog
    = Ok ([Byte.x53; Byte.x44; Byte.x4e; Byte.x41]
          ++ [Byte.x01; Byte.x00; Byte.x00; Byte.x00] ++ rest).
Proof.
  destruct (encoder_output_is_the_format LittleEndian Vec3_catalog) as [H _].
  - reflexivity.
  - reflexivity.
  - eexists. rewrite H. reflexivity.
Defined.

(** C2: for every catalog whose name buffers hold terminated strings (the
    names fit the bounded storage; a held string has no embedded NUL), encoding
    it and reading the bytes back with the symmetric reader gives the same
    catalog: the same structs in insertion order, each with its name, size and
    fields in order, each field with its name, type, offset, size, align,
    array and flags. *)
Theorem encode_then_read_round_trip (native : endianness) (DNA : SDNA.t) :
  blocks_sized DNA = true ->
  names_terminated DNA = true ->
  ints_typed DNA = true ->
  exists bytes,
    main_BufferOut native DNA = Ok bytes
    /\ SDNA_read native bytes = Some (catalog DNA).
Proof.
  intros Hsized Hterm Hints.
  exists (SDNA_format native (catalog DNA)). split.
  - now apply main_BufferOut_format.
  - apply SDNA_read_format. now apply catalog_readable.
Qed.

Lemma encode_then_read_round_trip_witness :
  exists bytes,
    main_BufferOut BigEndian Shapes_catalog = Ok bytes
    /\ SDNA_read BigEndian bytes = Some (catalog Shapes_catalog).
Proof.
  apply (encode_then_read_round_trip BigEndian Shapes_catalog); reflexivity.
Defined.

(** ** Exit status *)

Lemma main_ExitStatus_outcome (out : bool) (written size : Z) :
  written <= size ->
  main_ExitStatus out written size
  = match outcome out written size with
    | Success => 0
    | OpenFailure => -1
    | ShortWriteFailure => -2
    end.
Proof.
  intros H. unfold main_ExitStatus, outcome.
  destruct out; [|reflexivity].
  destruct (Z.eqb_spec written size), (Z.ltb_spec written size);
    cbn [negb]; (reflexivity || lia).
Qed.

(** C8: the value [main] returns, and the part of it a parent process sees,
    tell success, failure to open and short write apart: two runs end with the
    same status exactly when they have the same outcome. *)
Theorem exit_status_distinguishes_outcomes (out1 out2 : bool)
  (written1 size1 written2 size2 : Z) :
  written1 <= size1 ->
  written2 <= size2 ->
  (main_ExitStatus out1 written1 size1 = main_ExitStatus out2 written2 size2
   <-> outcome out1 written1 size1 = outcome out2 written2 size2)
  /\ (wait_status (main_ExitStatus out1 written1 size1)
      = wait_status (main_ExitStatus out2 written2 size2)
      <-> outcome out1 written1 size1 = outcome out2 written2 size2).
Proof.
  intros H1 H2.
  rewrite (main_ExitStatus_outcome out1 _ _ H1), (main_ExitStatus_outcome out2 _ _ H2).
  destruct (outcome out1 written1 size1), (outcome out2 written2 size2);
    split; split; intros H; (reflexivity || discriminate).
Qed.

Lemma exit_status_distinguishes_outcomes_witness :
  main_ExitStatus true 10 48 <> main_ExitStatus false 0 48
  /\ wait_status (main_ExitStatus true 10 48) <> wait_status (main_ExitStatus true 48 48).
Proof.
  destruct (exit_status_distinguishes_outcomes true false 10 48 0 48) as [[Ha _] _];
    [lia|lia|].
  destruct (exit_status_distinguishes_outcomes true true 10 48 48 48) as [_ [Hb _]];
    [lia|lia|].
  split; intros H; [apply Ha in H|apply Hb in H]; discriminate H.
Defined.

(** ** What [run] keeps true of the catalog *)

Lemma run_field_appended (CTX : ASTContext) (blk : option DNAField.t)
  (S S' : DNAStruct.t) (FD : FieldDecl) :
  struct_sized S = true ->
  run_field CTX blk S FD = Ok S' ->
  exists F,
    classified F
    /\ S' = DNAStruct.mk (DNAStruct.name S) (DNAStruct.size S)
              (DNAStruct._Fields S ++ [F]) (DNAStruct._FieldsLen S + 1).
Proof.
  intros HS. destruct blk as [fresh|].
  - rewrite (run_field_appends CTX fresh S FD HS).
    destruct (run_field_info _ _ _ _ _ _) as [F|e] eqn:HF; cbn [bind]; [|discriminate].
    intros [= <-]. exists F. split; [|reflexivity]. now exists CTX, FD.
  - unfold run_field, DNA_add_field, realloc. discriminate.
Qed.

Lemma run_fields_appended (CTX : ASTContext) (blocks : nat -> option DNAField.t)
  (FDs : list FieldDecl) (k : nat) (S S' : DNAStruct.t) :
  struct_sized S = true ->
  run_fields CTX blocks k S FDs = Ok S' ->
  exists Fs,
    Forall classified Fs
    /\ S' = DNAStruct.mk (DNAStruct.name S) (DNAStruct.size S)
              (DNAStruct._Fields S ++ Fs)
              (DNAStruct._FieldsLen S + Z.of_nat (length Fs)).
Proof.
  revert k S. induction FDs as [|FD FDs IH]; intros k S HS; cbn [run_fields].
  - intros [= <-]. exists []. split; [constructor|].
    rewrite app_nil_r, Z.add_0_r. now destruct S.
  - destruct (run_field CTX (blocks k) S FD) as [S1|e] eqn:H1; cbn [bind];
      [|discriminate].
    intros Hrest.
    destruct (run_field_appended _ _ _ _ _ HS H1) as [F [HF ->]].
    apply IH in Hrest.
    + destruct Hrest as [Fs [HFs ->]]. exists (F :: Fs).
      split; [now constructor|].
      cbn [DNAStruct.name DNAStruct.size DNAStruct._Fields DNAStruct._FieldsLen].
      rewrite <- app_assoc. cbn [app length]. f_equal. lia.
    + unfold struct_sized in *. apply Z.eqb_eq in HS. apply Z.eqb_eq.
      cbn [DNAStruct._Fields DNAStruct._FieldsLen].
      rewrite length_app. cbn [length]. lia.
Qed.

(** A call of [run] either leaves the catalog alone or appends one struct. *)
Lemma run_appends (heap : Heap) (DNA DNA' : SDNA.t) (Result : option TypedefDecl) :
  SDNA._TypesLen DNA = Z.of_nat (length (SDNA._Types DNA)) ->
  run heap DNA Result = Ok DNA' ->
  DNA' = DNA
  \/ exists S,
       entered S
       /\ DNA' = SDNA.mk (SDNA._Types DNA ++ [S]) (SDNA._TypesLen DNA + 1).
Proof.
  intros Hlen. unfold run.
  destruct Result as [TD|]; [|intros [= <-]; now left].
  destruct (getAsRecordDecl TD) as [RD|]; [|intros [= <-]; now left].
  destruct (BeginLocValid RD); cbn [negb]; [|intros [= <-]; now left].
  destruct (struct_block heap) as [fresh|].
  - rewrite (DNA_add_struct_grows fresh DNA _ Hlen).
    cbn [SDNA._Types SDNA._TypesLen]. rewrite through_last.
    destruct (run_fields _ _ _ _ _) as [S|e] eqn:HS; cbn [bind]; [|discriminate].
    intros [= <-]. right. exists S. split; [|reflexivity].
    apply run_fields_appended in HS; [|reflexivity].
    destruct HS as [Fs [HFs ->]]. now eexists _, _, Fs.
  - unfold DNA_add_struct, realloc. discriminate.
Qed.

Lemma built_entered (DNA : SDNA.t) :
  built DNA ->
  SDNA._TypesLen DNA = Z.of_nat (length (SDNA._Types DNA))
  /\ Forall entered (SDNA._Types DNA).
Proof.
  induction 1 as [|heap DNA DNA' Result _ [IHlen IH] Hrun].
  - split; [reflexivity|constructor].
  - destruct (run_appends _ _ _ _ IHlen Hrun) as [->|[S [HS ->]]]; [auto|].
    cbn [SDNA._Types SDNA._TypesLen]. split.
    + rewrite length_app. cbn [length]. lia.
    + apply Forall_app. auto.
Qed.

Lemma entered_sized (S : DNAStruct.t) : entered S -> struct_sized S = true.
Proof.
  intros [name [width [Fs [-> _]]]]. unfold struct_sized.
  cbn [DNAStruct._Fields DNAStruct._FieldsLen]. apply Z.eqb_refl.
Qed.

(** The lengths of a reachable catalog are the sizes of its blocks. *)
Lemma built_sized (DNA : SDNA.t) : built DNA -> blocks_sized DNA = true.
Proof.
  intros H. destruct (built_entered DNA H) as [Hlen HS].
  unfold blocks_sized. rewrite andb_true_iff, Z.eqb_eq, forallb_forall.
  split; [exact Hlen|]. rewrite Forall_forall in HS. auto using entered_sized.
Qed.

(** What the classification leaves in the integer members. *)
Lemma classified_members (F : DNAField.t) :
  classified F ->
  populated_flags (DNAField.flags F) = true
  /\ in_int (DNAField.offset F) = true /\ in_int (DNAField.size F) = true
  /\ in_int (DNAField.align F) = true /\ in_int (DNAField.array F) = true.
Proof.
  intros [CTX [FD HF]]. revert HF.
  destruct (isArrayType (getType FD)) eqn:HA.
  - rewrite (run_field_info_array CTX _ _ _ _ _ HA). cbv zeta.
    destruct (_ =? 0); [discriminate|]. intros [= <-].
    cbn [DNAField.flags DNAField.offset DNAField.size DNAField.align
         DNAField.array DNAField.zero DNAField.set_name].
    rewrite !to_int_in_int.
    destruct (isPointerType _); repeat split.
  - destruct (getPointeeType (getType FD)) as [Pointee|] eqn:HP.
    + rewrite (run_field_info_pointer CTX _ Pointee _ _ _ _ HP). intros [= <-].
      cbn [DNAField.flags DNAField.offset DNAField.size DNAField.align
           DNAField.array DNAField.zero DNAField.set_name].
      rewrite !to_int_in_int.
      destruct (isFunctionType Pointee); repeat split.
    + rewrite run_field_info_plain; trivial.
      * intros [= <-].
        cbn [DNAField.flags DNAField.offset DNAField.size DNAField.align
             DNAField.array DNAField.zero DNAField.set_name].
        rewrite !to_int_in_int. repeat split.
      * destruct (getType FD); cbn in HP |- *; congruence.
Qed.

Lemma populated_flags_in_int (flags : Z) :
  populated_flags flags = true -> in_int flags = true.
Proof.
  unfold populated_flags. rewrite !orb_true_iff, !Z.eqb_eq.
  intros [[->| ->]| ->]; reflexivity.
Qed.

(** The [int] members of a reachable catalog hold [int] values as long as
    its lengths do. *)
Lemma built_ints_typed (DNA : SDNA.t) :
  built DNA ->
  in_int (SDNA._TypesLen DNA) = true ->
  (forall S, In S (SDNA._Types DNA) -> in_int (DNAStruct._FieldsLen S) = true) ->
  ints_typed DNA = true.
Proof.
  intros Hb Hlen Hlens. destruct (built_entered DNA Hb) as [_ HS].
  unfold ints_typed. rewrite Hlen. cbn [andb].
  apply forallb_forall. intros S HIn.
  specialize (Hlens S HIn). rewrite Forall_forall in HS.
  destruct (HS S HIn) as [name [width [Fs [-> HFs]]]].
  unfold struct_ints.
  cbn [DNAStruct.size DNAStruct._Fields DNAStruct._FieldsLen] in *.
  rewrite to_int_in_int, Hlens. cbn [andb].
  apply forallb_forall. intros F HF. rewrite Forall_forall in HFs.
  destruct (classified_members F (HFs F HF)) as [H1 [H2 [H3 [H4 H5]]]].
  unfold field_ints. now rewrite H2, H3, H4, H5, (populated_flags_in_int _ H1).
Qed.

Lemma populated_flags_no_array (flags : Z) :
  populated_flags flags = true -> Z.land flags DNA_FIELD_IS_ARRAY = 0.
Proof.
  unfold populated_flags. rewrite !orb_true_iff, !Z.eqb_eq.
  intros [[->| ->]| ->]; reflexivity.
Qed.

(** C9: in every catalog the tool can reach, no field entry has the IsArray
    bit: the flags of a field are empty, IsPointer, or IsPointer with
    IsFunctionPointer, for array fields and arrays of pointers as for the
    rest. *)
Theorem IsArray_flag_never_set (DNA : SDNA.t) (S : DNAStruct.t) (F : DNAField.t) :
  built DNA ->
  In S (SDNA._Types DNA) ->
  In F (DNAStruct._Fields S) ->
  Z.land (DNAField.flags F) DNA_FIELD_IS_ARRAY = 0
  /\ (DNAField.flags F = 0
      \/ DNAField.flags F = DNA_FIELD_IS_POINTER
      \/ DNAField.flags F = Z.lor DNA_FIELD_IS_POINTER DNA_FIELD_IS_FUNCTION).
Proof.
  intros Hb HS HF.
  destruct (built_entered DNA Hb) as [_ Hent].
  rewrite Forall_forall in Hent.
  destruct (Hent S HS) as [name [width [Fs [-> HFs]]]].
  cbn [DNAStruct._Fields] in HF. rewrite Forall_forall in HFs.
  destruct (classified_members F (HFs F HF)) as [Hfl _].
  split; [now apply populated_flags_no_array|].
  unfold populated_flags in Hfl.
  rewrite !orb_true_iff, !Z.eqb_eq in Hfl. tauto.
Qed.

Lemma Shapes_catalog_built : built Shapes_catalog.
Proof.
  apply (built_run plenty Vec3_catalog _ (Some Shapes_decl)); [|reflexivity].
  apply (built_run plenty SDNA.zero _ (Some Vec3_decl)); [|reflexivity].
  apply built_zero.
Qed.

Lemma IsArray_flag_never_set_witness :
  Z.land (DNAField.flags slots_entry) DNA_FIELD_IS_ARRAY = 0
  /\ DNAField.flags slots_entry = DNA_FIELD_IS_POINTER
  /\ DNAField.array slots_entry = 4.
Proof.
  destruct (IsArray_flag_never_set Shapes_catalog Shapes_struct slots_entry)
    as [H _].
  - exact Shapes_catalog_built.
  - vm_compute. right. left. reflexivity.
  - vm_compute. right. left. reflexivity.
  - split; [exact H|]. split; reflexivity.
Defined.

(** ** Appending to the catalog *)

(** C10: a call of [DNA_add_struct] that returns a handle leaves the catalog
    with its former struct entries, unchanged and in place, followed by one new
    entry that is zeroed but for its name, and the handle is that entry; a
    call of [DNA_add_field] that returns a handle leaves the struct with its
    name, its size and its former field entries, followed by one new field
    entry that is zeroed but for its name, and the handle is that entry. *)
Theorem add_appends_one_zeroed_entry
  (sblk : option DNAStruct.t) (DNA DNA' : SDNA.t) (sname : list byte) (Struct : nat)
  (fblk : option DNAField.t) (S S' : DNAStruct.t) (fname : list byte) (Field : nat) :
  SDNA._TypesLen DNA = Z.of_nat (length (SDNA._Types DNA)) ->
  DNA_add_struct sblk DNA sname = (DNA', Some Struct) ->
  DNAStruct._FieldsLen S = Z.of_nat (length (DNAStruct._Fields S)) ->
  DNA_add_field fblk S fname = (S', Some Field) ->
  (SDNA._Types DNA'
   = SDNA._Types DNA ++ [DNAStruct.mk (bounded sname) 0 [] 0]
   /\ SDNA._TypesLen DNA' = SDNA._TypesLen DNA + 1
   /\ nth_error (SDNA._Types DNA') Struct
      = Some (DNAStruct.mk (bounded sname) 0 [] 0)
   /\ forall i T, nth_error (SDNA._Types DNA) i = Some T ->
                  nth_error (SDNA._Types DNA') i = Some T)
  /\ (DNAStruct._Fields S'
      = DNAStruct._Fields S ++ [DNAField.mk (bounded fname) (repeat Byte.x00 NAME_SIZE) 0 0 0 0 0]
      /\ DNAStruct._FieldsLen S' = DNAStruct._FieldsLen S + 1
      /\ DNAStruct.name S' = DNAStruct.name S
      /\ DNAStruct.size S' = DNAStruct.size S
      /\ nth_error (DNAStruct._Fields S') Field
         = Some (DNAField.mk (bounded fname) (repeat Byte.x00 NAME_SIZE) 0 0 0 0 0)
      /\ forall i F, nth_error (DNAStruct._Fields S) i = Some F ->
                     nth_error (DNAStruct._Fields S') i = Some F).
Proof.
  intros HlenD HaddS HlenS HaddF. split.
  - destruct sblk as [fresh|];
      [|unfold DNA_add_struct, realloc in HaddS; discriminate].
    rewrite (DNA_add_struct_grows fresh DNA sname HlenD) in HaddS.
    injection HaddS as <- <-. cbn [SDNA._Types SDNA._TypesLen].
    repeat split.
    + rewrite nth_error_app2, Nat.sub_diag by lia. reflexivity.
    + intros i T Hi. rewrite nth_error_app1; [exact Hi|].
      apply nth_error_Some. congruence.
  - destruct fblk as [fresh|];
      [|unfold DNA_add_field, realloc in HaddF; discriminate].
    rewrite (DNA_add_field_grows fresh S fname HlenS) in HaddF.
    injection HaddF as <- <-.
    cbn [DNAStruct._Fields DNAStruct._FieldsLen DNAStruct.name DNAStruct.size].
    repeat split.
    + rewrite nth_error_app2, Nat.sub_diag by lia. reflexivity.
    + intros i F Hi. rewrite nth_error_app1; [exact Hi|].
      apply nth_error_Some. congruence.
Qed.

Lemma add_appends_one_zeroed_entry_witness :
  map DNAStruct.name
    (SDNA._Types (fst (DNA_add_struct (Some dirty_struct) Vec3_catalog (str "Node"))))
  = map DNAStruct.name (SDNA._Types Vec3_catalog) ++ [bounded (str "Node")]
  /\ DNAStruct._FieldsLen (fst (DNA_add_field (Some dirty_field) fresh_struct (str "x")))
     = 1.
Proof.
  destruct (add_appends_one_zeroed_entry
              (Some dirty_struct) Vec3_catalog
              (fst (DNA_add_struct (Some dirty_struct) Vec3_catalog (str "Node")))
              (str "Node") 1
              (Some dirty_field) fresh_struct
              (fst (DNA_add_field (Some dirty_field) fresh_struct (str "x")))
              (str "x") 0)
    as [[HT _] [_ [HL _]]].
  - reflexivity.
  - reflexivity.
  - reflexivity.
  - reflexivity.
  - split; [|exact HL]. rewrite HT, map_app. reflexivity.
Defined.

(** ** Names longer than the storage *)

(** C6, at a struct name of 65 bytes: [DNA_add_struct] keeps its first 64
    bytes and leaves no terminator in the buffer, although a shorter name is
    stored whole and terminated; the encoder then reads past the buffer. *)
Theorem long_name_stored_without_terminator :
  snd (DNA_add_struct (Some dirty_struct) SDNA.zero long_name) = Some 0%nat
  /\ map DNAStruct.name (SDNA._Types long_name_catalog) = [firstn 64 long_name]
  /\ has_nul (firstn 64 long_name) = false
  /\ string_of_chars (firstn 64 long_name) = Fault BufferOverread
  /\ main_BufferOut LittleEndian long_name_catalog = Fault BufferOverread.
Proof. vm_compute. repeat split. Qed.

(** Names that fit are stored whole and terminated, struct and field names
    alike. *)
Lemma fitting_name_stored_unchanged (fresh : DNAStruct.t) (DNA : SDNA.t)
  (name : list byte) :
  SDNA._TypesLen DNA = Z.of_nat (length (SDNA._Types DNA)) ->
  fits name = true ->
  exists S,
    nth_error (SDNA._Types (fst (DNA_add_struct (Some fresh) DNA name)))
      (length (SDNA._Types DNA)) = Some S
    /\ string_of_chars (DNAStruct.name S) = Ok name.
Proof.
  intros Hlen Hfit. rewrite (DNA_add_struct_grows fresh DNA name Hlen).
  cbn [fst SDNA._Types]. eexists. split.
  - rewrite nth_error_app2, Nat.sub_diag by lia. reflexivity.
  - cbn [DNAStruct.name DNAStruct.set_name].
    destruct (bounded_fits name Hfit) as [H1 H2].
    rewrite (string_of_chars_terminated _ H1), H2. reflexivity.
Qed.

(** ** Failed allocations *)

(** C7, when [realloc] fails: [DNA_add_struct] and [DNA_add_field] return
    NULL, and [run] writes through the handle all the same: a record
    declaration met while the struct block cannot grow, and a field met while
    the field block cannot grow, both end in a null dereference. *)
Theorem failed_append_is_dereferenced :
  (forall DNA name, DNA_add_struct None DNA name = (DNA, None))
  /\ (forall S name, DNA_add_field None S name = (S, None))
  /\ (forall blocks DNA CTX Qual FDs,
        run (mkHeap None blocks) DNA
          (Some (mkTypedefDecl CTX Qual (Some (mkRecordDecl true FDs))))
        = Fault NullDereference)
  /\ (forall CTX S FD, run_field CTX None S FD = Fault NullDereference)
  /\ run exhausted SDNA.zero (Some Vec3_decl) = Fault NullDereference.
Proof. repeat split. Qed.

(** ** Reachable catalogs read back *)

(** For the catalogs the tool can reach the typing of the members comes for
    free: terminated names and lengths within [int] are enough. *)
Lemma reachable_catalog_reads_back (native : endianness) (DNA : SDNA.t) :
  built DNA ->
  names_terminated DNA = true ->
  in_int (SDNA._TypesLen DNA) = true ->
  (forall S, In S (SDNA._Types DNA) -> in_int (DNAStruct._FieldsLen S) = true) ->
  main_BufferOut native DNA = Ok (SDNA_format native (catalog DNA))
  /\ SDNA_read native (SDNA_format native (catalog DNA)) = Some (catalog DNA).
Proof.
  intros Hb Hterm Hlen Hlens.
  pose proof (built_sized DNA Hb) as Hsized. split.
  - now apply main_BufferOut_format.
  - apply SDNA_read_format, catalog_readable; [assumption|].
    now apply built_ints_typed.
Qed.

(** ** The sample declarations, run *)

Example Node_next_entry :
  map (fun S => map field_entry (DNAStruct._Fields S))
    (SDNA._Types (finished (run plenty SDNA.zero (Some Node_decl))))
  = [[mkFieldEntry (str "next") (str "Node") 0 8 8 1 DNA_FIELD_IS_POINTER]].
Proof. reflexivity. Qed.

Example Table_rows_entry :
  map (fun S => map field_entry (DNAStruct._Fields S))
    (SDNA._Types (finished (run plenty SDNA.zero (Some Table_decl))))
  = [[mkFieldEntry (str "rows") (str "int") 0 32 4 8 0]].
Proof. reflexivity. Qed.

Example Shapes_fn_entry :
  map field_entry (skipn 3 (DNAStruct._Fields Shapes_struct))
  = [mkFieldEntry (str "fn") (str "void (int)") 512 8 8 1
       (Z.lor DNA_FIELD_IS_POINTER DNA_FIELD_IS_FUNCTION)].
Proof. reflexivity. Qed.

(** * Further properties of the code *)

(** ** One iteration of the field loop *)

Lemma array_is_no_pointer (T : QualType) :
  isArrayType T = true -> getPointeeType T = None /\ isPointerType T = false.
Proof. destruct T; cbn; intros H; try discriminate; split; reflexivity. Qed.

Lemma classify_divisible (CTX : ASTContext) (FD : FieldDecl) :
  divisible CTX (getType FD) = true ->
  exists array flags,
    classify CTX FD
    = Ok (DNAField.mk (bounded (getNameAsString FD))
            (bounded (stored_type_name (getType FD)))
            (to_int (getFieldOffset FD))
            (to_int (byte_size CTX (getType FD)))
            (to_int (Align (getTypeInfo CTX (getType FD)) / 8))
            array flags).
Proof.
  unfold divisible, classify, stored_type_name, byte_size.
  destruct (isArrayType (getType FD)) eqn:HA.
  - destruct (array_is_no_pointer _ HA) as [HP _]. rewrite HP.
    rewrite (run_field_info_array CTX _ _ _ _ _ HA). cbv zeta. cbn [andb].
    destruct (_ =? 0); [discriminate|]. intros _.
    eexists _, _. unfold bounded.
    destruct (getPointeeType (innermost_element (getType FD))); reflexivity.
  - intros _. destruct (getPointeeType (getType FD)) as [Pointee|] eqn:HP.
    + rewrite (run_field_info_pointer CTX _ Pointee _ _ _ _ HP).
      eexists _, _. reflexivity.
    + rewrite run_field_info_plain; trivial.
      * eexists _, _. reflexivity.
      * destruct (getType FD); cbn in HP |- *; congruence.
Qed.

Lemma classify_indivisible (CTX : ASTContext) (FD : FieldDecl) :
  divisible CTX (getType FD) = false ->
  classify CTX FD = Fault DivisionByZero.
Proof.
  unfold divisible, classify, byte_size.
  destruct (isArrayType (getType FD)) eqn:HA; [|discriminate].
  rewrite (run_field_info_array CTX _ _ _ _ _ HA). cbv zeta. cbn [andb].
  destruct (_ =? 0); [reflexivity|discriminate].
Qed.

Lemma run_field_classify (CTX : ASTContext) (fresh : DNAField.t)
  (S : DNAStruct.t) (FD : FieldDecl) :
  struct_sized S = true ->
  run_field CTX (Some fresh) S FD
  = (F <- classify CTX FD ;;
     Ok (DNAStruct.mk (DNAStruct.name S) (DNAStruct.size S)
           (DNAStruct._Fields S ++ [F]) (DNAStruct._FieldsLen S + 1))).
Proof. apply run_field_appends. Qed.

(** X1: a field that is neither a pointer nor an array is stored as it is
    declared: no flag, [array] 1, and [type] stored from the type's own name,
    reading back as that name when it fits the storage. *)
Theorem plain_field_stored_as_declared (CTX : ASTContext) (fresh : DNAField.t)
  (S : DNAStruct.t) (FD : FieldDecl) :
  struct_sized S = true ->
  isPointerType (getType FD) = false ->
  isArrayType (getType FD) = false ->
  exists F,
    run_field CTX (Some fresh) S FD
    = Ok (DNAStruct.mk (DNAStruct.name S) (DNAStruct.size S)
            (DNAStruct._Fields S ++ [F]) (DNAStruct._FieldsLen S + 1))
    /\ DNAField.flags F = 0
    /\ DNAField.array F = 1
    /\ DNAField.type F = bounded (getAsString (getType FD))
    /\ (fits (getAsString (getType FD)) = true ->
        fe_type (field_entry F) = getAsString (getType FD)).
Proof.
  intros HS HP HA.
  rewrite (run_field_appends CTX fresh S FD HS).
  rewrite run_field_info_plain by assumption.
  cbn [bind]. eexists. split; [reflexivity|].
  cbn [DNAField.flags DNAField.array DNAField.type DNAField.zero DNAField.set_name].
  repeat split.
  intros Hfit. cbn [field_entry fe_type DNAField.type].
  apply (bounded_fits _ Hfit).
Qed.

Lemma plain_field_stored_as_declared_witness :
  exists F,
    run_field LP64 (Some dirty_field) fresh_struct w_field
    = Ok (DNAStruct.mk (DNAStruct.name fresh_struct) 0 [F] 1)
    /\ DNAField.flags F = 0
    /\ DNAField.array F = 1
    /\ fe_type (field_entry F) = str "float".
Proof.
  destruct (plain_field_stored_as_declared LP64 dirty_field fresh_struct w_field)
    as [F [Hrun [Hfl [Harr [_ Hty]]]]].
  - reflexivity.
  - reflexivity.
  - reflexivity.
  - exists F. repeat split; try assumption. apply Hty. reflexivity.
Defined.

(** X2: whatever branch classifies a field, an iteration that completes leaves
    one new entry after the former ones, holding the declared name in the
    bounded storage, the byte size and alignment (clang's bit counts divided
    by 8) and the offset exactly as [getFieldOffset] gave it, each converted
    to [int]; the struct's name and size are not touched. *)
Theorem field_entry_members (CTX : ASTContext) (blk : option DNAField.t)
  (S S' : DNAStruct.t) (FD : FieldDecl) :
  struct_sized S = true ->
  run_field CTX blk S FD = Ok S' ->
  exists F,
    S' = DNAStruct.mk (DNAStruct.name S) (DNAStruct.size S)
           (DNAStruct._Fields S ++ [F]) (DNAStruct._FieldsLen S + 1)
    /\ DNAField.name F = bounded (getNameAsString FD)
    /\ DNAField.type F = bounded (stored_type_name (getType FD))
    /\ DNAField.size F = to_int (Width (getTypeInfo CTX (getType FD)) / 8)
    /\ DNAField.align F = to_int (Align (getTypeInfo CTX (getType FD)) / 8)
    /\ DNAField.offset F = to_int (getFieldOffset FD).
Proof.
  intros HS. destruct blk as [fresh|].
  - rewrite (run_field_classify CTX fresh S FD HS).
    destruct (divisible CTX (getType FD)) eqn:HD.
    + destruct (classify_divisible CTX FD HD) as [a [f ->]]. cbn [bind].
      intros [= <-]. eexists. split; [reflexivity|]. repeat split.
    + rewrite (classify_indivisible CTX FD HD). discriminate.
  - unfold run_field, DNA_add_field, realloc. discriminate.
Qed.

Lemma field_entry_members_witness :
  exists F,
    DNAStruct._Fields
      (completed (run_field LP64 (Some dirty_field) fresh_struct
                    (placed 192 slots_field)))
    = [F]
    /\ DNAField.size F = 32
    /\ DNAField.align F = 8
    /\ DNAField.offset F = 192.
Proof.
  destruct (field_entry_members LP64 (Some dirty_field) fresh_struct
              (completed (run_field LP64 (Some dirty_field) fresh_struct
                            (placed 192 slots_field)))
              (placed 192 slots_field))
    as [F [HS [_ [_ [Hs [Ha Ho]]]]]].
  - reflexivity.
  - reflexivity.
  - exists F. rewrite HS. repeat split; assumption.
Defined.

(** Closes one direction of an equivalence between two decided outcomes. *)
Ltac settle_outcome :=
  first
    [ discriminate
    | reflexivity
    | intros [_ H]; discriminate H
    | intros [H _]; now elim H
    | intros [? H]; discriminate H
    | intros _; eexists; reflexivity
    | intros _; split; [discriminate|reflexivity]
    | match goal with
      | H : exists _, _ |- _ => destruct H as [? H']; discriminate H'
      end ].

(** X3: the three ways an iteration of the field loop ends.  It completes
    exactly when [realloc] gave a block and the array branch has a divisor; it
    dereferences NULL exactly when [realloc] failed; it divides by zero
    exactly when the block was given and the field is an array whose innermost
    element has byte size zero.  It ends in no other way. *)
Theorem field_iteration_outcome (CTX : ASTContext) (blk : option DNAField.t)
  (S : DNAStruct.t) (FD : FieldDecl) :
  struct_sized S = true ->
  ((exists S', run_field CTX blk S FD = Ok S')
   <-> blk <> None /\ divisible CTX (getType FD) = true)
  /\ (run_field CTX blk S FD = Fault NullDereference <-> blk = None)
  /\ (run_field CTX blk S FD = Fault DivisionByZero
      <-> blk <> None /\ divisible CTX (getType FD) = false)
  /\ run_field CTX blk S FD <> Fault OutOfBounds
  /\ run_field CTX blk S FD <> Fault BufferOverread.
Proof.
  intros HS. destruct blk as [fresh|].
  - rewrite (run_field_classify CTX fresh S FD HS).
    destruct (divisible CTX (getType FD)) eqn:HD.
    + destruct (classify_divisible CTX FD HD) as [a [f ->]]. cbn [bind].
      repeat split; settle_outcome.
    + rewrite (classify_indivisible CTX FD HD). cbn [bind].
      repeat split; settle_outcome.
  - assert (E : run_field CTX None S FD = Fault NullDereference) by reflexivity.
    rewrite E. repeat split; settle_outcome.
Qed.

Lemma field_iteration_outcome_witness :
  run_field LP64 (Some dirty_field) fresh_struct cells_field
  = Fault DivisionByZero
  /\ exists S', run_field LP64 (Some dirty_field) fresh_struct grid_field = Ok S'.
Proof.
  destruct (field_iteration_outcome LP64 (Some dirty_field) fresh_struct cells_field)
    as [_ [_ [[_ Hz] _]]]; [reflexivity|].
  destruct (field_iteration_outcome LP64 (Some dirty_field) fresh_struct grid_field)
    as [[_ Hok] _]; [reflexivity|].
  split.
  - apply Hz. split; [discriminate|reflexivity].
  - apply Hok. split; [discriminate|reflexivity].
Defined.

(** ** The whole field loop and the whole callback *)

Lemma classify_Ok (CTX : ASTContext) (FD : FieldDecl) (F : DNAField.t) :
  classify CTX FD = Ok F ->
  divisible CTX (getType FD) = true
  /\ DNAField.name F = bounded (getNameAsString FD)
  /\ DNAField.type F = bounded (stored_type_name (getType FD)).
Proof.
  destruct (divisible CTX (getType FD)) eqn:HD.
  - destruct (classify_divisible CTX FD HD) as [a [f ->]]. intros [= <-].
    repeat split.
  - rewrite (classify_indivisible CTX FD HD). discriminate.
Qed.

Lemma run_fields_Ok (CTX : ASTContext) (blocks : nat -> option DNAField.t)
  (FDs : list FieldDecl) (k : nat) (S S' : DNAStruct.t) :
  struct_sized S = true ->
  run_fields CTX blocks k S FDs = Ok S' ->
  exists Fs,
    S' = DNAStruct.mk (DNAStruct.name S) (DNAStruct.size S)
           (DNAStruct._Fields S ++ Fs)
           (DNAStruct._FieldsLen S + Z.of_nat (length FDs))
    /\ Forall2 (fun FD F => classify CTX FD = Ok F) FDs Fs
    /\ (forall i, (i < length FDs)%nat -> blocks (k + i)%nat <> None).
Proof.
  revert k S. induction FDs as [|FD FDs IH]; intros k S HS; cbn [run_fields].
  - intros [= <-]. exists []. split; [|split; [constructor|cbn; lia]].
    rewrite app_nil_r. cbn [length]. rewrite Z.add_0_r. now destruct S.
  - destruct (blocks k) as [fresh|] eqn:Hk;
      [|unfold run_field, DNA_add_field, realloc; cbn [bind]; discriminate].
    rewrite (run_field_classify CTX fresh S FD HS).
    destruct (classify CTX FD) as [F|e] eqn:HF; cbn [bind]; [|discriminate].
    intros Hrest. apply IH in Hrest.
    + destruct Hrest as [Fs [-> [H2 Hb]]]. exists (F :: Fs).
      cbn [DNAStruct.name DNAStruct.size DNAStruct._Fields DNAStruct._FieldsLen].
      split; [|split].
      * rewrite <- app_assoc. cbn [app length]. f_equal. lia.
      * now constructor.
      * intros [|i] Hi.
        -- rewrite Nat.add_0_r, Hk. discriminate.
        -- replace (k + Datatypes.S i)%nat with (Datatypes.S k + i)%nat by lia.
           apply Hb. cbn [length] in Hi. lia.
    + unfold struct_sized in *. apply Z.eqb_eq in HS. apply Z.eqb_eq.
      cbn [DNAStruct._Fields DNAStruct._FieldsLen].
      rewrite length_app. cbn [length]. lia.
Qed.



(** [run] on a record declaration with a valid location, once the struct is
    added: the field loop on the fresh struct, put at the end of the block. *)
Lemma run_on_record (heap : Heap) (DNA : SDNA.t) (TD : TypedefDecl)
  (RD : RecordDecl) :
  SDNA._TypesLen DNA = Z.of_nat (length (SDNA._Types DNA)) ->
  getAsRecordDecl TD = Some RD ->
  BeginLocValid RD = true ->
  run heap DNA (Some TD)
  = match struct_block heap with
    | None => Fault NullDereference
    | Some _ =>
        S' <- run_fields (getASTContext TD) (field_block heap) 0
                (DNAStruct.mk (bounded (getAsString (getUnderlyingType TD)))
                   (to_int (Width (getTypeInfo (getASTContext TD)
                                     (getUnderlyingType TD)) / 8))
                   [] 0)
                (fields RD) ;;
        Ok (SDNA.mk (SDNA._Types DNA ++ [S']) (SDNA._TypesLen DNA + 1))
    end.
Proof.
  intros Hlen HRD Hvalid.
  unfold run. rewrite HRD, Hvalid. cbn [negb].
  destruct (struct_block heap) as [fresh|]; [|reflexivity].
  rewrite (DNA_add_struct_grows fresh DNA _ Hlen).
  cbn [SDNA._Types SDNA._TypesLen]. rewrite through_last.
  destruct (run_fields _ _ _ _ _); reflexivity.
Qed.



(** X5: a call of [run] that completes never touches the structs that were in
    the catalog: each stays at its index with its contents; the block grows by
    at most one struct and its recorded length stays the size of the block. *)
Theorem run_keeps_earlier_structs (heap : Heap) (DNA DNA' : SDNA.t)
  (Result : option TypedefDecl) :
  SDNA._TypesLen DNA = Z.of_nat (length (SDNA._Types DNA)) ->
  run heap DNA Result = Ok DNA' ->
  (forall i T, nth_error (SDNA._Types DNA) i = Some T ->
               nth_error (SDNA._Types DNA') i = Some T)
  /\ (length (SDNA._Types DNA) <= length (SDNA._Types DNA')
      <= length (SDNA._Types DNA) + 1)%nat
  /\ SDNA._TypesLen DNA' = Z.of_nat (length (SDNA._Types DNA')).
Proof.
  intros Hlen Hrun.
  destruct (run_appends _ _ _ _ Hlen Hrun) as [->|[S [_ ->]]].
  - repeat split; auto; lia.
  - cbn [SDNA._Types SDNA._TypesLen]. rewrite length_app. cbn [length].
    repeat split; try lia.
    intros i T Hi. rewrite nth_error_app1; [exact Hi|].
    apply nth_error_Some. congruence.
Qed.

Lemma run_keeps_earlier_structs_witness :
  nth_error (SDNA._Types Shapes_catalog) 0 = nth_error (SDNA._Types Vec3_catalog) 0
  /\ SDNA._TypesLen Shapes_catalog = 2.
Proof.
  destruct (run_keeps_earlier_structs plenty Vec3_catalog Shapes_catalog
              (Some Shapes_decl)) as [Hkeep [_ Hlen]].
  - reflexivity.
  - reflexivity.
  - split; [|exact Hlen].
    destruct (nth_error (SDNA._Types Vec3_catalog) 0) as [T|] eqn:HT.
    + exact (Hkeep 0%nat T HT).
    + discriminate HT.
Defined.

(** X6: [run] hands the catalog back unchanged exactly for the matches it
    skips: no typedef node, an underlying type that is no record, or a record
    without a valid location.  For those it never calls the allocator; for a
    record with a valid location it never returns the catalog it was given. *)
Theorem run_skips_exactly (heap : Heap) (DNA : SDNA.t) (Result : option TypedefDecl) :
  SDNA._TypesLen DNA = Z.of_nat (length (SDNA._Types DNA)) ->
  (run heap DNA Result = Ok DNA
   <-> match Result with
       | None => True
       | Some TD =>
           match getAsRecordDecl TD with
           | None => True
           | Some RD => BeginLocValid RD = false
           end
       end).
Proof.
  intros Hlen.
  destruct Result as [TD|]; [|split; [trivial|reflexivity]].
  destruct (getAsRecordDecl TD) as [RD|] eqn:HRD;
    [|unfold run; rewrite HRD; split; [trivial|reflexivity]].
  destruct (BeginLocValid RD) eqn:HV.
  - split; [|discriminate].
    rewrite (run_on_record heap DNA TD RD Hlen HRD HV).
    destruct (struct_block heap); [|discriminate].
    destruct (run_fields _ _ _ _ _) as [S'|e]; cbn [bind]; [|discriminate].
    intros [= H]. exfalso.
    apply (f_equal (fun D => length (SDNA._Types D))) in H.
    cbn [SDNA._Types] in H. rewrite length_app in H. cbn [length] in H. lia.
  - unfold run. rewrite HRD, HV. split; reflexivity.
Qed.

Lemma run_skips_exactly_witness :
  run exhausted Vec3_catalog
    (Some (mkTypedefDecl LP64 int_type None)) = Ok Vec3_catalog
  /\ run plenty Vec3_catalog (Some Node_decl) <> Ok Vec3_catalog.
Proof.
  pose proof (run_skips_exactly exhausted Vec3_catalog
                (Some (mkTypedefDecl LP64 int_type None)) eq_refl) as [_ H1].
  pose proof (run_skips_exactly plenty Vec3_catalog (Some Node_decl) eq_refl)
    as [H2 _].
  split; [exact (H1 I)|].
  intros H. apply H2 in H. discriminate H.
Defined.

(** ** Catalogs the tool can reach *)

Lemma classified_buffers (F : DNAField.t) :
  classified F ->
  length (DNAField.name F) = NAME_SIZE /\ length (DNAField.type F) = NAME_SIZE.
Proof.
  intros [CTX [FD HF]]. destruct (classify_Ok CTX FD F HF) as [_ [-> ->]].
  split; apply bounded_length.
Qed.

(** X7: in every catalog reachable from the zeroed one, whatever the
    declarations and the allocator were, each recorded length is the number
    of cells in its block: [_TypesLen] counts the structs and every
    [_FieldsLen] counts the fields of its struct. *)
Theorem reachable_lengths_count_cells (DNA : SDNA.t) (S : DNAStruct.t) :
  built DNA ->
  In S (SDNA._Types DNA) ->
  SDNA._TypesLen DNA = Z.of_nat (length (SDNA._Types DNA))
  /\ DNAStruct._FieldsLen S = Z.of_nat (length (DNAStruct._Fields S)).
Proof.
  intros Hb HS. destruct (built_entered DNA Hb) as [Hlen Hent].
  split; [exact Hlen|].
  rewrite Forall_forall in Hent.
  apply Z.eqb_eq. apply entered_sized. auto.
Qed.

Lemma reachable_lengths_count_cells_witness :
  SDNA._TypesLen Shapes_catalog = 2 /\ DNAStruct._FieldsLen Shapes_struct = 4.
Proof.
  apply (reachable_lengths_count_cells Shapes_catalog Shapes_struct).
  - exact Shapes_catalog_built.
  - vm_compute. right. left. reflexivity.
Defined.

(** X8: in every reachable catalog the name and type buffers keep their 64
    bytes, and every integer member of a field (offset, size, align, array,
    flags) and every struct size is a value of [int]: [run] never stores
    anything outside the 32-bit range and never writes outside a buffer. *)
Theorem reachable_entries_well_typed (DNA : SDNA.t) (S : DNAStruct.t)
  (F : DNAField.t) :
  built DNA ->
  In S (SDNA._Types DNA) ->
  In F (DNAStruct._Fields S) ->
  length (DNAStruct.name S) = NAME_SIZE
  /\ int_range (DNAStruct.size S)
  /\ length (DNAField.name F) = NAME_SIZE
  /\ length (DNAField.type F) = NAME_SIZE
  /\ int_range (DNAField.offset F) /\ int_range (DNAField.size F)
  /\ int_range (DNAField.align F) /\ int_range (DNAField.array F)
  /\ int_range (DNAField.flags F).
Proof.
  intros Hb HS HF. destruct (built_entered DNA Hb) as [_ Hent].
  rewrite Forall_forall in Hent.
  destruct (Hent S HS) as [name [width [Fs [-> HFs]]]].
  cbn [DNAStruct.name DNAStruct.size DNAStruct._Fields] in *.
  rewrite Forall_forall in HFs. specialize (HFs F HF).
  destruct (classified_buffers F HFs) as [Hn Ht].
  destruct (classified_members F HFs) as [H1 [H2 [H3 [H4 H5]]]].
  apply populated_flags_in_int in H1.
  rewrite in_int_range in *.
  split; [apply bounded_length|].
  split; [apply in_int_range, to_int_in_int|].
  repeat (split; [assumption|]). assumption.
Qed.

Lemma reachable_entries_well_typed_witness :
  length (DNAField.type slots_entry) = 64%nat
  /\ int_range (DNAField.size slots_entry).
Proof.
  destruct (reachable_entries_well_typed Shapes_catalog Shapes_struct slots_entry)
    as [_ [_ [_ [Ht [_ [Hs _]]]]]].
  - exact Shapes_catalog_built.
  - vm_compute. right. left. reflexivity.
  - vm_compute. right. left. reflexivity.
  - split; assumption.
Defined.

(** ** From a declaration to the bytes *)

Lemma Forall2_classify_fits (CTX : ASTContext) (FDs : list FieldDecl)
  (Fs : list DNAField.t) :
  Forall2 (fun FD F => classify CTX FD = Ok F) FDs Fs ->
  forallb field_fits FDs = true ->
  forallb field_terminated Fs = true
  /\ map fe_name (map field_entry Fs) = map getNameAsString FDs
  /\ map fe_type (map field_entry Fs)
     = map (fun FD => stored_type_name (getType FD)) FDs.
Proof.
  induction 1 as [|FD F FDs Fs HF _ IH]; cbn [map forallb]; [repeat split|].
  rewrite andb_true_iff. intros [Hfit Hfits].
  destruct (IH Hfits) as [IH1 [IH2 IH3]].
  destruct (classify_Ok CTX FD F HF) as [_ [Hn Ht]].
  unfold field_fits in Hfit. apply andb_true_iff in Hfit as [Hfn Hft].
  destruct (bounded_fits _ Hfn) as [Hn1 Hn2].
  destruct (bounded_fits _ Hft) as [Ht1 Ht2].
  rewrite IH1, IH2, IH3.
  unfold field_terminated, field_entry. cbn [fe_name fe_type].
  rewrite Hn, Ht, Hn1, Ht1, Hn2, Ht2. repeat split.
Qed.

(** X9: when the names of a record declaration fit the storage (the record's
    name, every field's name and every classified type name: no NUL, under 64
    bytes), a completed [run] on a catalog with terminated names leaves a
    catalog with terminated names whose new last entry carries exactly the
    declared names, and [main] encodes that catalog without reading past any
    buffer. *)
Theorem fitting_record_is_encoded (native : endianness) (heap : Heap)
  (DNA DNA' : SDNA.t) (TD : TypedefDecl) (RD : RecordDecl) :
  blocks_sized DNA = true ->
  names_terminated DNA = true ->
  getAsRecordDecl TD = Some RD ->
  BeginLocValid RD = true ->
  record_fits TD RD = true ->
  run heap DNA (Some TD) = Ok DNA' ->
  names_terminated DNA' = true
  /\ main_BufferOut native DNA' = Ok (SDNA_format native (catalog DNA'))
  /\ exists Es,
       catalog DNA'
       = catalog DNA
         ++ [mkStructEntry (getAsString (getUnderlyingType TD))
               (to_int (Width (getTypeInfo (getASTContext TD)
                                 (getUnderlyingType TD)) / 8)) Es]
       /\ map fe_name Es = map getNameAsString (fields RD)
       /\ map fe_type Es
          = map (fun FD => stored_type_name (getType FD)) (fields RD).
Proof.
  intros Hsized Hterm HRD Hvalid Hfits.
  pose proof Hsized as Hsized0.
  unfold blocks_sized in Hsized. apply andb_true_iff in Hsized as [Hlen Hall].
  apply Z.eqb_eq in Hlen.
  rewrite (run_on_record heap DNA TD RD Hlen HRD Hvalid).
  destruct (struct_block heap); [|discriminate].
  destruct (run_fields _ _ _ _ _) as [S'|e] eqn:HS; cbn [bind]; [|discriminate].
  intros [= <-].
  apply run_fields_Ok in HS; [|reflexivity].
  destruct HS as [Fs [-> [H2 _]]].
  cbn [DNAStruct.name DNAStruct.size DNAStruct._Fields DNAStruct._FieldsLen app] in *.
  unfold record_fits in Hfits. apply andb_true_iff in Hfits as [Hname Hfields].
  destruct (bounded_fits _ Hname) as [Hn1 Hn2].
  destruct (Forall2_classify_fits _ _ _ H2 Hfields) as [Ht [He1 He2]].
  assert (Hterm' : names_terminated
                     (SDNA.mk
                        (SDNA._Types DNA
                         ++ [DNAStruct.mk
                               (bounded (getAsString (getUnderlyingType TD)))
                               (to_int (Width (getTypeInfo (getASTContext TD)
                                                 (getUnderlyingType TD)) / 8))
                               Fs (Z.of_nat (length (fields RD)))])
                        (SDNA._TypesLen DNA + 1)) = true).
  { unfold names_terminated in *. cbn [SDNA._Types].
    rewrite forallb_app, Hterm. cbn [forallb andb].
    unfold struct_terminated. cbn [DNAStruct.name DNAStruct._Fields].
    now rewrite Hn1, Ht. }
  split; [exact Hterm'|]. split.
  - apply main_BufferOut_format; [|exact Hterm'].
    unfold blocks_sized. cbn [SDNA._Types SDNA._TypesLen].
    rewrite forallb_app, Hall. cbn [forallb].
    unfold struct_sized at 1. cbn [DNAStruct._Fields DNAStruct._FieldsLen].
    rewrite (Forall2_length H2), Z.eqb_refl. cbn [andb].
    rewrite andb_true_r. apply Z.eqb_eq. rewrite length_app. cbn [length]. lia.
  - exists (map field_entry Fs). split; [|now split].
    unfold catalog. cbn [SDNA._Types]. rewrite map_app. cbn [map].
    unfold struct_entry at 2. cbn [DNAStruct.name DNAStruct.size DNAStruct._Fields].
    now rewrite Hn2.
Qed.

Lemma fitting_record_is_encoded_witness :
  names_terminated Node_catalog = true
  /\ map se_name (catalog Node_catalog) = [str "Vec3"; str "Node"].
Proof.
  destruct (fitting_record_is_encoded LittleEndian plenty Vec3_catalog Node_catalog
              Node_decl
              (mkRecordDecl true
                 [mkFieldDecl (str "next")
                    (PointerType (str "Node *") (NamedType (str "Node") 64 64)) 0]))
    as [Ht [_ [Es [Hc _]]]]; try reflexivity.
  split; [exact Ht|]. rewrite Hc, map_app. reflexivity.
Defined.

(** ** The encoder on any catalog *)

Lemma for_cells_extends {A : Type}
  (body : A -> list byte -> result (list byte)) (arr : list A) :
  (forall a B B', body a B = Ok B' -> exists r, B' = B ++ r) ->
  forall n i B B',
    for_cells arr i n body B = Ok B' -> exists r, B' = B ++ r.
Proof.
  intros Hbody. induction n as [|n IH]; intros i B B'; cbn [for_cells].
  - intros [= <-]. exists []. now rewrite app_nil_r.
  - destruct (nth_error arr i) as [a|]; [|discriminate].
    destruct (body a B) as [B1|e] eqn:H1; cbn [bind]; [|discriminate].
    intros H. destruct (Hbody _ _ _ H1) as [r1 ->].
    destruct (IH _ _ _ H) as [r2 ->].
    exists (r1 ++ r2). now rewrite app_assoc.
Qed.

Lemma for_each_extends {A : Type}
  (body : A -> list byte -> result (list byte)) (arr : list A) (len : Z)
  (B B' : list byte) :
  (forall a B B', body a B = Ok B' -> exists r, B' = B ++ r) ->
  for_each arr len body B = Ok B' -> exists r, B' = B ++ r.
Proof.
  intros Hbody. unfold for_each. destruct (len <? 0); [discriminate|].
  now apply for_cells_extends.
Qed.

Lemma main_write_field_extends (native : endianness) (F : DNAField.t)
  (B B' : list byte) :
  main_write_field native F B = Ok B' -> exists r, B' = B ++ r.
Proof.
  unfold main_write_field.
  destruct (string_of_chars (DNAField.name F)) as [n|e]; cbn [bind]; [|discriminate].
  destruct (string_of_chars (DNAField.type F)) as [t|e]; cbn [bind]; [|discriminate].
  rewrite !WriteIntOut_app, !WriteStringOut_app. intros [= <-].
  eexists. rewrite <- !app_assoc. reflexivity.
Qed.

Lemma main_write_struct_extends (native : endianness) (S : DNAStruct.t)
  (B B' : list byte) :
  main_write_struct native S B = Ok B' -> exists r, B' = B ++ r.
Proof.
  unfold main_write_struct.
  destruct (string_of_chars (DNAStruct.name S)) as [n|e]; cbn [bind]; [|discriminate].
  rewrite !WriteIntOut_app, !WriteStringOut_app. intros H.
  apply for_each_extends in H; [|apply main_write_field_extends].
  destruct H as [r ->]. eexists. rewrite <- !app_assoc. reflexivity.
Qed.

(** X10: whatever the catalog holds, a buffer that [main] finishes building
    starts with the four bytes "SDNA" and the four bytes of [_TypesLen]; the
    loops only ever append to it, so it has at least eight bytes. *)
Theorem encoded_buffer_starts_with_header (native : endianness) (DNA : SDNA.t)
  (bytes : list byte) :
  main_BufferOut native DNA = Ok bytes ->
  (exists rest,
     bytes = [Byte.x53; Byte.x44; Byte.x4e; Byte.x41]
             ++ object_representation native (SDNA._TypesLen DNA) ++ rest)
  /\ (8 <= length bytes)%nat.
Proof.
  unfold main_BufferOut. intros H.
  apply for_each_extends in H; [|apply main_write_struct_extends].
  destruct H as [rest ->].
  rewrite WriteIntOut_app, WriteWordOut_app.
  split.
  - exists rest. rewrite <- (object_representation_int32 native).
    cbn [app]. now rewrite <- app_assoc.
  - rewrite !length_app, int32_length.
    change (length SDNA_magic) with 4%nat. cbn [length]. lia.
Qed.

Lemma encoded_buffer_starts_with_header_witness :
  exists bytes,
    main_BufferOut BigEndian Shapes_catalog = Ok bytes
    /\ firstn 8 bytes
       = [Byte.x53; Byte.x44; Byte.x4e; Byte.x41;
          Byte.x00; Byte.x00; Byte.x00; Byte.x02].
Proof.
  destruct (main_BufferOut BigEndian Shapes_catalog) as [bytes|e] eqn:H;
    [|vm_compute in H; discriminate H].
  exists bytes. split; [reflexivity|].
  destruct (encoded_buffer_starts_with_header BigEndian Shapes_catalog bytes H)
    as [[rest ->] _].
  reflexivity.
Defined.






Lemma format_field_length (native : endianness) (F : FieldEntry) :
  length (format_field native F) = field_entry_bytes F.
Proof.
  unfold format_field, field_entry_bytes, cstring.
  rewrite !length_app, !int32_length. cbn [length]. lia.
Qed.

Lemma flat_map_length_sum {A : Type} (f : A -> list byte) (size : A -> nat)
  (l : list A) :
  (forall a, length (f a) = size a) ->
  length (flat_map f l) = list_sum (map size l).
Proof.
  intros H. induction l as [|a l IH]; cbn [flat_map map list_sum]; [reflexivity|].
  now rewrite length_app, H, IH.
Qed.

Lemma format_struct_length (native : endianness) (S : StructEntry) :
  length (format_struct native S) = struct_entry_bytes S.
Proof.
  unfold format_struct, struct_entry_bytes, cstring.
  rewrite !length_app, !int32_length,
    (flat_map_length_sum _ _ _ (format_field_length native)).
  cbn [length]. lia.
Qed.

(** X12: the number of bytes [main] writes for a catalog with terminated
    names does not depend on the byte order: eight bytes of header, per struct
    its name's length and nine more, per field its name's and its type's
    lengths and twenty-two more. *)
Theorem encoded_buffer_size (native : endianness) (DNA : SDNA.t) :
  blocks_sized DNA = true ->
  names_terminated DNA = true ->
  exists bytes,
    main_BufferOut native DNA = Ok bytes
    /\ length bytes
       = (8 + list_sum
                (map (fun S =>
                        length (held_string (DNAStruct.name S)) + 9
                        + list_sum
                            (map (fun F =>
                                    length (held_string (DNAField.name F))
                                    + length (held_string (DNAField.type F)) + 22)
                               (DNAStruct._Fields S)))
                   (SDNA._Types DNA)))%nat.
Proof.
  intros Hsized Hterm. eexists. split; [now apply main_BufferOut_format|].
  unfold SDNA_format. rewrite !length_app, int32_length.
  change (length SDNA_magic) with 4%nat.
  rewrite (flat_map_length_sum _ _ _ (format_struct_length native)).
  unfold catalog. rewrite map_map, Nat.add_assoc.
  change (4 + 4)%nat with 8%nat.
  f_equal. apply f_equal. apply map_ext. intros S.
  unfold struct_entry_bytes, struct_entry. cbn [se_name se_size se_fields].
  rewrite map_map.
  rewrite (map_ext (fun x => field_entry_bytes (field_entry x))
             (fun F => length (held_string (DNAField.name F))
                       + length (held_string (DNAField.type F)) + 22)%nat).
  - lia.
  - intros F. unfold field_entry_bytes, field_entry. cbn [fe_name fe_type]. lia.
Qed.

Lemma encoded_buffer_size_witness :
  exists bytes,
    main_BufferOut BigEndian Vec3_catalog = Ok bytes /\ length bytes = 105%nat.
Proof.
  destruct (encoded_buffer_size BigEndian Vec3_catalog) as [bytes [H1 H2]];
    [reflexivity|reflexivity|].
  exists bytes. split; [exact H1|]. rewrite H2. reflexivity.
Defined.

(** X13: two catalogs with terminated names and [int]-valued members that
    [main] encodes to the same bytes hold the same structs, fields, names and
    numbers in the same order: the encoding loses nothing of the catalog. *)
Theorem encoder_is_injective (native : endianness) (DNA1 DNA2 : SDNA.t) :
  blocks_sized DNA1 = true -> names_terminated DNA1 = true -> ints_typed DNA1 = true ->
  blocks_sized DNA2 = true -> names_terminated DNA2 = true -> ints_typed DNA2 = true ->
  main_BufferOut native DNA1 = main_BufferOut native DNA2 ->
  catalog DNA1 = catalog DNA2.
Proof.
  intros Hs1 Ht1 Hi1 Hs2 Ht2 Hi2.
  rewrite (main_BufferOut_format native DNA1 Hs1 Ht1).
  rewrite (main_BufferOut_format native DNA2 Hs2 Ht2).
  intros H.
  apply (f_equal (fun r => match r with
                           | Ok bytes => SDNA_read native bytes
                           | Fault _ => None
                           end)) in H.
  cbv beta iota in H.
  rewrite !SDNA_read_format in H by now apply catalog_readable.
  now injection H.
Qed.

Lemma encoder_is_injective_witness :
  main_BufferOut LittleEndian Vec3_catalog <> main_BufferOut LittleEndian Node_catalog.
Proof.
  intros H.
  apply (encoder_is_injective LittleEndian Vec3_catalog Node_catalog) in H;
    try reflexivity.
  discriminate H.
Defined.

(** ** The three writers *)

(** X14: [WriteIntOut] leaves the buffer's contents in place and appends
    exactly four bytes; read in the machine's byte order they give back the
    [int] that was written, and they are the same for two values that agree
    modulo [2^32]. *)
Theorem WriteIntOut_appends_four_bytes (native : endianness) (Buffer : list byte)
  (value : Z) :
  exists bs,
    WriteIntOut native Buffer value = Buffer ++ bs
    /\ length bs = 4%nat
    /\ le_combine match native with
                  | LittleEndian => bs
                  | BigEndian => rev bs
                  end = value mod 2 ^ 32
    /\ (int_range value ->
        to_int (le_combine match native with
                           | LittleEndian => bs
                           | BigEndian => rev bs
                           end) = value)
    /\ (forall value', value' mod 2 ^ 32 = value mod 2 ^ 32 ->
        WriteIntOut native Buffer value' = Buffer ++ bs).
Proof.
  exists (object_representation native value).
  assert (Hc : forall v,
             le_combine match native with
                        | LittleEndian => object_representation native v
                        | BigEndian => rev (object_representation native v)
                        end = v mod 2 ^ 32).
  { intros v. destruct native; cbn [object_representation];
      rewrite ?rev_involutive; apply (le_combine_split 4). }
  assert (Hl : forall v, length (object_representation native v) = 4%nat).
  { intros v. rewrite object_representation_int32. apply int32_length. }
  split; [apply fold_push_back|]. split; [apply Hl|]. split; [apply Hc|].
  split.
  - intros Hint. rewrite Hc, to_int_mod. now apply to_int_id.
  - intros value' Hmod. unfold WriteIntOut. rewrite fold_push_back. f_equal.
    assert (Hle : le_split 4 value' = le_split 4 value).
    { apply le_combine_inj; [now rewrite !length_le_split|].
      rewrite !le_combine_split. exact Hmod. }
    destruct native; cbn [object_representation]; now rewrite Hle.
Qed.

(** X15: [WriteWordOut] appends the bytes of the word, in order, and nothing
    else; [WriteStringOut] appends the same bytes and then one NUL; neither
    changes what the buffer already held. *)
Theorem string_writers_append (Buffer Word : list byte) :
  WriteWordOut Buffer Word = Buffer ++ Word
  /\ WriteStringOut Buffer Word = Buffer ++ Word ++ [Byte.x00]
  /\ WriteStringOut Buffer Word = WriteWordOut Buffer Word ++ [Byte.x00]
  /\ length (WriteStringOut Buffer Word) = (length Buffer + length Word + 1)%nat
  /\ firstn (length Buffer) (WriteStringOut Buffer Word) = Buffer.
Proof.
  rewrite WriteStringOut_app, WriteWordOut_app. unfold cstring.
  repeat split.
  - now rewrite app_assoc.
  - rewrite !length_app. cbn [length]. lia.
  - rewrite firstn_app, Nat.sub_diag, firstn_all. cbn [firstn].
    apply app_nil_r.
Qed.

(** ** [strncpy] into a name buffer *)

Lemma strncpy_bytes_held (s : list byte) (n : nat) :
  strncpy_bytes s n = strncpy_bytes (held_string s) n.
Proof.
  revert s. induction n as [|n IH]; intros s; [reflexivity|].
  destruct s as [|b s]; [reflexivity|].
  cbn [strncpy_bytes held_string].
  destruct (is_nul b) eqn:Hb; [reflexivity|].
  cbn [strncpy_bytes]. rewrite Hb. now rewrite IH.
Qed.

(** X16: [strncpy] with the buffer's size as its count never changes the size
    of the buffer and ignores everything after the first NUL of the source;
    when the string before that NUL is shorter than the buffer, the buffer
    afterwards holds exactly that string, whatever it held before. *)
Theorem strncpy_stores_short_strings (dest src : list byte) :
  length dest = NAME_SIZE ->
  length (strncpy dest src NAME_SIZE) = NAME_SIZE
  /\ strncpy dest src NAME_SIZE = strncpy dest (held_string src) NAME_SIZE
  /\ ((length (held_string src) < NAME_SIZE)%nat ->
      string_of_chars (strncpy dest src NAME_SIZE) = Ok (held_string src)).
Proof.
  intros Hd. rewrite !(strncpy_whole dest _ NAME_SIZE Hd).
  split; [apply strncpy_bytes_length|]. split; [apply strncpy_bytes_held|].
  intros Hlen. rewrite strncpy_bytes_held.
  destruct (strncpy_bytes_fits (held_string src) NAME_SIZE
              (held_string_no_nul src) Hlen) as [H1 H2].
  now rewrite (string_of_chars_terminated _ H1), H2.
Qed.

Lemma strncpy_stores_short_strings_witness :
  string_of_chars (strncpy (repeat Byte.xff NAME_SIZE) (str "Vec3") NAME_SIZE)
  = Ok (str "Vec3").
Proof.
  destruct (strncpy_stores_short_strings (repeat Byte.xff NAME_SIZE) (str "Vec3"))
    as [_ [_ H]]; [reflexivity|].
  apply H. vm_compute. lia.
Defined.

(** X17: a source with 64 or more bytes before its first NUL fills the buffer
    with its first 64 bytes and leaves no NUL in it, so that reading the
    buffer back as a string runs past its end. *)
Theorem strncpy_leaves_long_strings_unterminated (dest src : list byte) :
  length dest = NAME_SIZE ->
  (NAME_SIZE <= length (held_string src))%nat ->
  strncpy dest src NAME_SIZE = firstn NAME_SIZE src
  /\ has_nul (strncpy dest src NAME_SIZE) = false
  /\ string_of_chars (strncpy dest src NAME_SIZE) = Fault BufferOverread.
Proof.
  intros Hd Hlen. rewrite (strncpy_whole dest _ NAME_SIZE Hd).
  rewrite strncpy_bytes_held.
  destruct (strncpy_bytes_truncates (held_string src) NAME_SIZE
              (held_string_no_nul src) Hlen) as [H1 H2].
  assert (Hf : firstn NAME_SIZE (held_string src) = firstn NAME_SIZE src).
  { clear -Hlen. revert Hlen. generalize NAME_SIZE. intros n. revert n.
    induction src as [|b s IH]; intros n; [reflexivity|].
    cbn [held_string]. destruct (is_nul b).
    - cbn [length]. intros H. now replace n with 0%nat by lia.
    - destruct n as [|n]; [reflexivity|]. cbn [length firstn]. intros H.
      rewrite IH by lia. reflexivity. }
  split; [now rewrite H1, Hf|]. split; [exact H2|].
  now apply string_of_chars_overread.
Qed.

Lemma strncpy_leaves_long_strings_unterminated_witness :
  string_of_chars (strncpy (repeat Byte.x00 NAME_SIZE) long_name NAME_SIZE)
  = Fault BufferOverread.
Proof.
  destruct (strncpy_leaves_long_strings_unterminated
              (repeat Byte.x00 NAME_SIZE) long_name) as [_ [_ H]].
  - reflexivity.
  - vm_compute. lia.
  - exact H.
Defined.

(** ** Fresh cells and large fields *)

Lemma run_fields_fresh (CTX : ASTContext) (blocks1 blocks2 : nat -> option DNAField.t)
  (FDs : list FieldDecl) (k : nat) (S : DNAStruct.t) :
  struct_sized S = true ->
  (forall i, blocks1 i = None <-> blocks2 i = None) ->
  run_fields CTX blocks1 k S FDs = run_fields CTX blocks2 k S FDs.
Proof.
  intros HS Hsame. revert k S HS.
  induction FDs as [|FD FDs IH]; intros k S HS; cbn [run_fields]; [reflexivity|].
  destruct (blocks1 k) as [f1|] eqn:H1, (blocks2 k) as [f2|] eqn:H2.
  - rewrite !(run_field_classify CTX _ S FD HS).
    destruct (classify CTX FD) as [F|e]; cbn [bind]; [|reflexivity].
    apply IH. unfold struct_sized in *. apply Z.eqb_eq in HS. apply Z.eqb_eq.
    cbn [DNAStruct._Fields DNAStruct._FieldsLen].
    rewrite length_app. cbn [length]. lia.
  - apply Hsame in H2. congruence.
  - apply Hsame in H1. congruence.
  - reflexivity.
Qed.

(** X18: what a fresh cell held when [realloc] handed it out never reaches
    the catalog: two runs of [run] whose allocations succeed and fail at the
    same calls end the same way, with the same catalog, whatever their new
    cells contained. *)
Theorem fresh_cell_contents_never_leak (heap1 heap2 : Heap) (DNA : SDNA.t)
  (Result : option TypedefDecl) :
  SDNA._TypesLen DNA = Z.of_nat (length (SDNA._Types DNA)) ->
  (struct_block heap1 = None <-> struct_block heap2 = None) ->
  (forall i, field_block heap1 i = None <-> field_block heap2 i = None) ->
  run heap1 DNA Result = run heap2 DNA Result.
Proof.
  intros Hlen Hs Hf.
  destruct Result as [TD|]; [|reflexivity].
  destruct (getAsRecordDecl TD) as [RD|] eqn:HRD;
    [|unfold run; rewrite HRD; reflexivity].
  destruct (BeginLocValid RD) eqn:HV;
    [|unfold run; rewrite HRD, HV; reflexivity].
  rewrite !(run_on_record _ DNA TD RD Hlen HRD HV).
  destruct (struct_block heap1) as [s1|] eqn:H1,
           (struct_block heap2) as [s2|] eqn:H2.
  - rewrite (run_fields_fresh _ (field_block heap1) (field_block heap2));
      [reflexivity|reflexivity|exact Hf].
  - destruct Hs as [_ Hs]. specialize (Hs eq_refl). discriminate Hs.
  - destruct Hs as [Hs _]. specialize (Hs eq_refl). discriminate Hs.
  - reflexivity.
Qed.

Lemma fresh_cell_contents_never_leak_witness :
  run plenty Vec3_catalog (Some Shapes_decl) = run clean Vec3_catalog (Some Shapes_decl).
Proof.
  apply (fresh_cell_contents_never_leak plenty clean Vec3_catalog (Some Shapes_decl)).
  - reflexivity.
  - split; discriminate.
  - intros i. split; discriminate.
Defined.

Lemma to_int_wraps (z : Z) : 2 ^ 31 <= z < 2 ^ 32 -> to_int z = z - 2 ^ 32.
Proof.
  intros H. unfold to_int.
  replace (z + 2 ^ 31) with ((z - 2 ^ 31) + 1 * 2 ^ 32) by lia.
  rewrite Z.mod_add by lia. rewrite Z.mod_small; lia.
Qed.

(** X19: the byte size of a field is computed as a [size_t] and stored in an
    [int]: a field of [2^31] bytes or more (and under [2^32]) is entered with
    its size less [2^32], a negative number, and no error is raised. *)
Theorem large_field_size_is_negative (CTX : ASTContext) (fresh : DNAField.t)
  (S : DNAStruct.t) (FD : FieldDecl) :
  struct_sized S = true ->
  divisible CTX (getType FD) = true ->
  2 ^ 31 <= byte_size CTX (getType FD) < 2 ^ 32 ->
  exists F,
    run_field CTX (Some fresh) S FD
    = Ok (DNAStruct.mk (DNAStruct.name S) (DNAStruct.size S)
            (DNAStruct._Fields S ++ [F]) (DNAStruct._FieldsLen S + 1))
    /\ DNAField.size F = byte_size CTX (getType FD) - 2 ^ 32
    /\ DNAField.size F < 0.
Proof.
  intros HS HD Hbig.
  rewrite (run_field_classify CTX fresh S FD HS).
  destruct (classify_divisible CTX FD HD) as [a [f ->]]. cbn [bind].
  eexists. split; [reflexivity|]. cbn [DNAField.size].
  rewrite (to_int_wraps _ Hbig). lia.
Qed.

Lemma large_field_size_is_negative_witness :
  exists F,
    run_field LP64 (Some dirty_field) fresh_struct blob_field
    = Ok (DNAStruct.mk (DNAStruct.name fresh_struct) 0 [F] 1)
    /\ DNAField.size F = -1294967296.
Proof.
  destruct (large_field_size_is_negative LP64 dirty_field fresh_struct blob_field)
    as [F [Hrun [Hs _]]].
  - reflexivity.
  - reflexivity.
  - vm_compute. split; [discriminate|reflexivity].
  - exists F. split; [exact Hrun|]. rewrite Hs. reflexivity.
Defined.
